(** * Reconciliation of PayTm and Razorpay settlements against Shopify orders

    A shallow embedding of [data_processor.py]: the two payment normalizers
    ([process_paytm_data], [process_razorpay_data]), the matcher
    ([match_orders]) and the combiner ([combine_and_format_data]), followed by
    the properties of the reconciliation engine.  Of [process_shopify_data]
    the embedding has what the matcher depends on, the conversion of a row and
    the order the final sort leaves the pool in; the reading of the uploaded
    files is not embedded.

    A pandas [DataFrame] is a list of rows, a row is a record with one field
    per column.  Amounts are binary64 floats, as pandas holds them; a missing
    number is [nan], a missing timestamp ([NaT]) or a missing text cell is
    [None].  The two sets of used order names are [gset string].

    What the model takes from pandas: [read_csv] and the converters decide
    cell by cell whether a text is a number or a timestamp, and that decision
    comes with the input ([cell]); [DataFrame.apply(f, axis=1)] passes every
    row to [f] once, in order, and collects the rows [f] returns;
    [sort_values] puts empty cells last and, on several keys, is stable.
    Order names are text, never empty cells. *)

From Stdlib Require Import Floats ZArith Ascii String List Permutation Sorted.
From stdpp Require Import base gmap sets list strings.

Local Open Scope string_scope.

(** ** Values held in the cells *)

(** A calendar date, what [Timestamp.date()] and [Series.dt.date] return. *)
Record date := { year : Z; month : Z; day : Z }.

(** A [Timestamp]: a calendar date and the second of that day. *)
Record timestamp := { on : date; second_of_day : Z }.

Definition date_eqb (a b : date) : bool :=
  (year a =? year b)%Z && (month a =? month b)%Z && (day a =? day b)%Z.

(** A cell of a CSV column that pandas converts: empty, text the conversion
    rejects, or text that converts to [a]. *)
Inductive cell (A : Type) : Type :=
| Blank
| Junk (text : string)
| Val (a : A).
Arguments Blank {A}.
Arguments Junk {A} text.
Arguments Val {A} a.

(** Exceptions that end a run. *)
Inductive exn := ValueError (text : string) | KeyError (column : string).

Inductive result (A : Type) : Type :=
| Ok (a : A)
| Raise (e : exn).
Arguments Ok {A} a.
Arguments Raise {A} e.

Definition bind {A B} (m : result A) (k : A -> result B) : result B :=
  match m with
  | Ok a => k a
  | Raise e => Raise e
  end.

Notation "'let*' x ':=' m 'in' k" := (bind m (fun x => k))
  (at level 10, x name, m at level 100, k at level 200).

Fixpoint mapM {A B} (f : A -> result B) (l : list A) : result (list B) :=
  match l with
  | [] => Ok []
  | a :: l' => let* b := f a in let* bs := mapM f l' in Ok (b :: bs)
  end.

(** [pd.to_numeric(col, errors="coerce")] on one cell. *)
Definition to_numeric_coerce (c : cell float) : float :=
  match c with
  | Val a => a
  | Blank | Junk _ => nan
  end.

(** [pd.to_datetime(col, format=...)], whose [errors] argument is left at
    its default, ["raise"]. *)
Definition to_datetime_raise (c : cell timestamp) : result (option timestamp) :=
  match c with
  | Val t => Ok (Some t)
  | Blank => Ok None
  | Junk text => Raise (ValueError text)
  end.

(** [pd.to_datetime(col, errors="coerce")]. *)
Definition to_datetime_coerce (c : cell timestamp) : option timestamp :=
  match c with
  | Val t => Some t
  | Blank | Junk _ => None
  end.

(** [x.strip("'")]: every leading and trailing apostrophe goes. *)
Fixpoint lstrip (ch : ascii) (s : string) : string :=
  match s with
  | String a s' => if Ascii.eqb a ch then lstrip ch s' else s
  | EmptyString => s
  end.

Definition strip (ch : ascii) (s : string) : string :=
  String.rev (lstrip ch (String.rev (lstrip ch s))).

Definition apostrophe : ascii := "'"%char.

(** ** The canonical transaction row *)

Record txn := {
  TDate : option timestamp;
  Date : option string;
  Platform : string;
  Type_ : option string;
  Order_Amt : float;
  Fee : float;
  Debit : float;
  Credit : float;
  Order_ID : option string;
  Party_Information_1 : option string;
  Party_Information_2 : option string;
  Party_Information_3 : option string
}.

(** [x["Type"] == label] *)
Definition Type_is (label : string) (ty : option string) : bool :=
  match ty with
  | Some s => String.eqb s label
  | None => false
  end.

(** The two [apply(lambda x: ..., axis=1)] that fill Debit and Credit. *)
Definition debit_of (ty : option string) (amt fee : float) : float :=
  if Type_is "refund" ty then (amt - fee)%float else 0%float.

Definition credit_of (ty : option string) (amt fee : float) : float :=
  if Type_is "payment" ty then (amt - fee)%float else 0%float.

(** ** process_paytm_data *)

Module PayTm.
Record row := {
  transaction_date : cell timestamp;
  settled_date : option string;
  transaction_type : option string;
  amount : cell float;
  commission : cell float;
  gst : cell float
}.
End PayTm.

(** [.replace({"ACQUIRING": "payment", "REFUND": "refund"})] on one cell. *)
Definition replace_transaction_type (s : string) : string :=
  if String.eqb s "ACQUIRING" then "payment"
  else if String.eqb s "REFUND" then "refund"
  else s.

Definition paytm_type (r : PayTm.row) : option string :=
  option_map (fun s => replace_transaction_type (strip apostrophe s))
             (PayTm.transaction_type r).

Definition process_paytm_row (r : PayTm.row) : result txn :=
  let amount := to_numeric_coerce (PayTm.amount r) in
  let commission := to_numeric_coerce (PayTm.commission r) in
  let gst := to_numeric_coerce (PayTm.gst r) in
  let ty := paytm_type r in
  let* tdate := to_datetime_raise (PayTm.transaction_date r) in
  let fee := (commission + gst)%float in
  Ok {| TDate := tdate;
        Date := option_map (strip apostrophe) (PayTm.settled_date r);
        Platform := "PayTm";
        Type_ := ty;
        Order_Amt := amount;
        Fee := fee;
        Debit := debit_of ty amount fee;
        Credit := credit_of ty amount fee;
        Order_ID := None;
        Party_Information_1 := None;
        Party_Information_2 := None;
        Party_Information_3 := None |}.

Definition process_paytm_data (file : list PayTm.row) : result (list txn) :=
  mapM process_paytm_row file.

(** ** process_razorpay_data *)

Module Razorpay.
Record row := {
  payment_captured_at : cell timestamp;
  settled_at : option string;
  transaction_entity : option string;
  amount : cell float;
  fee_exclusive_tax : cell float;
  tax : cell float
}.
End Razorpay.

Definition process_razorpay_row (r : Razorpay.row) : txn :=
  let amount := to_numeric_coerce (Razorpay.amount r) in
  let fee_excl := to_numeric_coerce (Razorpay.fee_exclusive_tax r) in
  let tax := to_numeric_coerce (Razorpay.tax r) in
  let ty := Razorpay.transaction_entity r in
  let fee := (fee_excl + tax)%float in
  {| TDate := to_datetime_coerce (Razorpay.payment_captured_at r);
     Date := Razorpay.settled_at r;
     Platform := "Razorpay";
     Type_ := ty;
     Order_Amt := amount;
     Fee := fee;
     Debit := debit_of ty amount fee;
     Credit := credit_of ty amount fee;
     Order_ID := None;
     Party_Information_1 := None;
     Party_Information_2 := None;
     Party_Information_3 := None |}.

Definition process_razorpay_data (file : list Razorpay.row) : result (list txn) :=
  Ok (List.map process_razorpay_row file).

(** ** sort_values *)

(** A stable insertion sort: [x] goes in front of the first element that is
    not below it, so rows with equal keys keep their order. *)
Section Sort.
Context {A : Type} (leb : A -> A -> bool).

Fixpoint insert_sorted (x : A) (l : list A) : list A :=
  match l with
  | [] => [x]
  | y :: l' => if leb x y then x :: y :: l' else y :: insert_sorted x l'
  end.

Fixpoint sort_values (l : list A) : list A :=
  match l with
  | [] => []
  | x :: l' => insert_sorted x (sort_values l')
  end.
End Sort.

(** ** process_shopify_data: a row of the pool, and the final sort *)

Module Shopify.
(** A row of an order export, as [read_csv] gives it. *)
Record row := {
  Name : string;
  Total : float;
  Billing_Name : option string;
  Billing_Street : option string;
  Billing_Company : option string;
  Paid_at : cell timestamp
}.
End Shopify.

(** An order candidate, a row of [shopify_df] as [match_orders] takes it:
    the six columns kept, "Paid at" a column of timestamps. *)
Record order := {
  Name : string;
  Total : float;
  Billing_Name : option string;
  Billing_Street : option string;
  Billing_Company : option string;
  Paid_at : option timestamp
}.

(** One row through [pd.to_datetime(temp_df["Paid at"], errors="coerce")]
    and the selection of the six columns. *)
Definition shopify_order (r : Shopify.row) : order :=
  {| Name := Shopify.Name r;
     Total := Shopify.Total r;
     Billing_Name := Shopify.Billing_Name r;
     Billing_Street := Shopify.Billing_Street r;
     Billing_Company := Shopify.Billing_Company r;
     Paid_at := to_datetime_coerce (Shopify.Paid_at r) |}.

(** The order of [sort_values("Name")]: names as text, byte by byte. *)
Definition Name_leb (a b : order) : bool := String.leb (Name a) (Name b).

(** ** match_orders *)

(** The two sets the matcher keeps. *)
Record used_names := {
  paytm_used_names : gset string;
  razorpay_used_names : gset string
}.

(** [shopify_df["Paid at"].dt.date == row["TDate"].date()]: never true when
    either side is [NaT]. *)
Definition same_date (a b : option timestamp) : bool :=
  match a, b with
  | Some x, Some y => date_eqb (on x) (on y)
  | _, _ => false
  end.

(** The candidate subset: equal amount and equal calendar date. *)
Definition is_match (row : txn) (c : order) : bool :=
  PrimFloat.eqb (Total c) (Order_Amt row) && same_date (Paid_at c) (TDate row).

Definition matching_row (shopify_df : list order) (row : txn) : list order :=
  List.filter (is_match row) shopify_df.

(** [shopify_row["Name"] not in used] *)
Definition not_in (used : gset string) (c : order) : bool :=
  bool_decide (Name c ∉ used).

(** The four assignments to the row on a match. *)
Definition annotate (row : txn) (c : order) : txn :=
  {| TDate := TDate row;
     Date := Date row;
     Platform := Platform row;
     Type_ := Type_ row;
     Order_Amt := Order_Amt row;
     Fee := Fee row;
     Debit := Debit row;
     Credit := Credit row;
     Order_ID := Some (Name c);
     Party_Information_1 := Billing_Name c;
     Party_Information_2 := Billing_Street c;
     Party_Information_3 := Billing_Company c |}.

Definition is_None {A} (o : option A) : bool :=
  match o with
  | None => true
  | Some _ => false
  end.

(** The inner function.  Payment rows consult and extend
    [paytm_used_names], refund rows [razorpay_used_names], whichever frame
    the row comes from.  The loop with [break] is [find]: the first matching
    row whose name is not in the set, none when [matching_row] is empty. *)
Definition match_order_id_and_party_info (shopify_df : list order)
    (used : used_names) (row : txn) : txn * used_names :=
  if Type_is "payment" (Type_ row) && is_None (Order_ID row) then
    match List.find (not_in (paytm_used_names used)) (matching_row shopify_df row) with
    | Some shopify_row =>
        (annotate row shopify_row,
         {| paytm_used_names := {[ Name shopify_row ]} ∪ paytm_used_names used;
            razorpay_used_names := razorpay_used_names used |})
    | None => (row, used)
    end
  else if Type_is "refund" (Type_ row) && is_None (Order_ID row) then
    match List.find (not_in (razorpay_used_names used)) (matching_row shopify_df row) with
    | Some shopify_row =>
        (annotate row shopify_row,
         {| paytm_used_names := paytm_used_names used;
            razorpay_used_names := {[ Name shopify_row ]} ∪ razorpay_used_names used |})
    | None => (row, used)
    end
  else (row, used).

(** [df.apply(f, axis=1)] with the state [f] mutates threaded through the
    rows in order; every row is passed to [f] once. *)
Fixpoint df_apply {State : Type} (f : State -> txn -> txn * State) (st : State)
    (df : list txn) : list txn * State :=
  match df with
  | [] => ([], st)
  | row :: df' =>
      let '(row', st1) := f st row in
      let '(out, st2) := df_apply f st1 df' in
      (row' :: out, st2)
  end.

Definition no_names : used_names :=
  {| paytm_used_names := ∅; razorpay_used_names := ∅ |}.

(** [~isin(paytm_used_names) & ~isin(razorpay_used_names)] *)
Definition unused (used : used_names) (c : order) : bool :=
  not_in (paytm_used_names used) c && not_in (razorpay_used_names used) c.

(** The body of [match_orders], with the two sets as they stand at the end
    kept next to the three frames. *)
Definition match_orders_run (paytm_df razorpay_df : list txn) (shopify_df : list order)
  : list txn * list txn * list order * used_names :=
  let '(paytm_out, used1) :=
    df_apply (match_order_id_and_party_info shopify_df) no_names paytm_df in
  let '(razorpay_out, used2) :=
    df_apply (match_order_id_and_party_info shopify_df) used1 razorpay_df in
  (paytm_out, razorpay_out, List.filter (unused used2) shopify_df, used2).

Definition match_orders (paytm_df razorpay_df : list txn) (shopify_df : list order)
  : list txn * list txn * list order :=
  fst (match_orders_run paytm_df razorpay_df shopify_df).

(** The sets at the end of the run. *)
Definition final_names (paytm_df razorpay_df : list txn) (shopify_df : list order)
  : used_names :=
  snd (match_orders_run paytm_df razorpay_df shopify_df).

(** ** combine_and_format_data *)

(** The order of one key column: text by code points, empty cells after
    every text ([na_position] is left at its default, ["last"]). *)
Definition key_cell_compare (a b : option string) : comparison :=
  match a, b with
  | Some x, Some y => String.compare x y
  | Some _, None => Lt
  | None, Some _ => Gt
  | None, None => Eq
  end.

(** First difference wins. *)
Definition then_compare (c : comparison) (rest : comparison) : comparison :=
  match c with
  | Eq => rest
  | _ => c
  end.

(** [by=["Date", "Platform", "Type", "Order ID"]] *)
Definition key_compare (a b : txn) : comparison :=
  then_compare (key_cell_compare (Date a) (Date b))
    (then_compare (String.compare (Platform a) (Platform b))
       (then_compare (key_cell_compare (Type_ a) (Type_ b))
          (key_cell_compare (Order_ID a) (Order_ID b)))).

Definition key_leb (a b : txn) : bool :=
  match key_compare a b with
  | Gt => false
  | _ => true
  end.

Module Ledger.
(** A row of the final frame: the twelve columns kept. *)
Record row := {
  Sr_No : nat;
  Date : option string;
  Platform : string;
  Type_ : option string;
  Order_Amt : float;
  Fee : float;
  Debit : float;
  Credit : float;
  Order_ID : option string;
  Party_Information_1 : option string;
  Party_Information_2 : option string;
  Party_Information_3 : option string
}.
End Ledger.

Definition ledger_row (sr_no : nat) (t : txn) : Ledger.row :=
  {| Ledger.Sr_No := sr_no;
     Ledger.Date := Date t;
     Ledger.Platform := Platform t;
     Ledger.Type_ := Type_ t;
     Ledger.Order_Amt := Order_Amt t;
     Ledger.Fee := Fee t;
     Ledger.Debit := Debit t;
     Ledger.Credit := Credit t;
     Ledger.Order_ID := Order_ID t;
     Ledger.Party_Information_1 := Party_Information_1 t;
     Ledger.Party_Information_2 := Party_Information_2 t;
     Ledger.Party_Information_3 := Party_Information_3 t |}.

(** The concatenated frame in sorted order, before numbering. *)
Definition sorted_ledger (paytm_df razorpay_df : list txn) : list txn :=
  sort_values key_leb (paytm_df ++ razorpay_df)%list.

(** [final_df["Sr. No."] = range(1, len(final_df) + 1)], then the projection. *)
Definition number_rows (final_df : list txn) : list Ledger.row :=
  List.map (fun '(sr_no, t) => ledger_row sr_no t)
           (List.combine (List.seq 1 (length final_df)) final_df).

Definition combine_and_format_data (paytm_df razorpay_df : list txn) : list Ledger.row :=
  number_rows (sorted_ledger paytm_df razorpay_df).

(** * Notions used in the statements *)

(** [t] is a row one of the two normalizers returns. *)
Definition normalized (t : txn) : Prop :=
  (exists file df, process_paytm_data file = Ok df /\ In t df) \/
  (exists file df, process_razorpay_data file = Ok df /\ In t df).

(** [x != 0] and [x == 0] on floats. *)
Definition nonzero (x : float) : Prop := PrimFloat.eqb x 0 = false.
Definition zero (x : float) : Prop := PrimFloat.eqb x 0 = true.

Definition exactly_one_nonzero (debit credit : float) : Prop :=
  (nonzero debit /\ zero credit) \/ (zero debit /\ nonzero credit).

(** The canonical kinds. *)
Definition canonical_kind (ty : option string) : Prop :=
  ty = Some "payment" \/ ty = Some "refund".

(** Debit and Credit as the kind, the gross amount and the fee decide them. *)
Definition by_kind (ty : option string) (amt fee debit credit : float) : Prop :=
  debit = (if Type_is "refund" ty then amt - fee else 0)%float /\
  credit = (if Type_is "payment" ty then amt - fee else 0)%float /\
  (debit = 0%float \/ credit = 0%float) /\
  (exactly_one_nonzero debit credit <-> canonical_kind ty /\ nonzero (amt - fee)).

(** A row as the normalizers leave it: no order and no party yet. *)
Definition unannotated (t : txn) : Prop := Order_ID t = None.

(** The fields [match_orders] has no assignment to. *)
Definition same_other_fields (t t' : txn) : Prop :=
  TDate t' = TDate t /\ Date t' = Date t /\ Platform t' = Platform t /\
  Type_ t' = Type_ t /\ Order_Amt t' = Order_Amt t /\ Fee t' = Fee t /\
  Debit t' = Debit t /\ Credit t' = Credit t.

(** [c] is an unclaimed matching candidate for [row]: amount and calendar
    date agree, and the name of [c] is not in the set kept for rows of this
    kind. *)
Definition unclaimed_match (used : used_names) (row : txn) (c : order) : Prop :=
  is_match row c = true /\
  ((Type_ row = Some "payment" /\ Name c ∉ paytm_used_names used) \/
   (Type_ row = Some "refund" /\ Name c ∉ razorpay_used_names used)).

(** The rows in the order the matcher visits them, and the two sets as they
    stand when it reaches row [k]. *)
Definition visited (paytm_df razorpay_df : list txn) : list txn :=
  (paytm_df ++ razorpay_df)%list.

Definition names_before (shopify_df : list order) (paytm_df razorpay_df : list txn)
    (k : nat) : used_names :=
  snd (df_apply (match_order_id_and_party_info shopify_df) no_names
                (take k (visited paytm_df razorpay_df))).

(** What one call of the inner function can do. *)
Inductive step_outcome (shopify_df : list order) (used : used_names) (row : txn)
  : txn * used_names -> Prop :=
| payment_claims c :
    Type_ row = Some "payment" -> unannotated row ->
    List.find (not_in (paytm_used_names used)) (matching_row shopify_df row) = Some c ->
    step_outcome shopify_df used row
      (annotate row c,
       {| paytm_used_names := {[ Name c ]} ∪ paytm_used_names used;
          razorpay_used_names := razorpay_used_names used |})
| refund_claims c :
    Type_ row = Some "refund" -> unannotated row ->
    List.find (not_in (razorpay_used_names used)) (matching_row shopify_df row) = Some c ->
    step_outcome shopify_df used row
      (annotate row c,
       {| paytm_used_names := paytm_used_names used;
          razorpay_used_names := {[ Name c ]} ∪ razorpay_used_names used |})
| left_alone :
    (~ unannotated row \/ forall c, In c shopify_df -> ~ unclaimed_match used row c) ->
    step_outcome shopify_df used row (row, used).

(** All names in either set, and the order names a frame refers to. *)
Definition all_names (used : used_names) : gset string :=
  paytm_used_names used ∪ razorpay_used_names used.

Definition order_ref (t : txn) : gset string :=
  match Order_ID t with
  | Some n => {[ n ]}
  | None => ∅
  end.

Definition order_refs (df : list txn) : gset string :=
  ⋃ (List.map order_ref df).

(** The pool in ascending order of name. *)
Definition Name_le (a b : order) : Prop := String.leb (Name a) (Name b) = true.

(** The order ids held by the rows of one kind. *)
Definition kind_refs (kind : string) (df : list txn) : list string :=
  flat_map (fun t => if Type_is kind (Type_ t)
                     then match Order_ID t with Some n => [n] | None => [] end
                     else [])
           df.

(** A comparison that is a strict total order with [Eq] as equality. *)
Class TotalCompare {A : Type} (cmp : A -> A -> comparison) := {
  cmp_eq : forall a b, cmp a b = Eq <-> a = b;
  cmp_opp : forall a b, cmp b a = CompOpp (cmp a b);
  cmp_lt_trans : forall a b c, cmp a b = Lt -> cmp b c = Lt -> cmp a c = Lt
}.

Definition cmp_leb {A} (cmp : A -> A -> comparison) (a b : A) : bool :=
  match cmp a b with
  | Gt => false
  | _ => true
  end.

(** Comparison of pairs, first component first. *)
Definition lex_compare {A B} (cmpA : A -> A -> comparison) (cmpB : B -> B -> comparison)
    (x y : A * B) : comparison :=
  then_compare (cmpA (fst x) (fst y)) (cmpB (snd x) (snd y)).

(** The sort key of a row. *)
Definition sort_key (t : txn) : option string * (string * (option string * option string)) :=
  (Date t, (Platform t, (Type_ t, Order_ID t))).

Definition sort_key_compare :=
  lex_compare key_cell_compare
    (lex_compare String.compare (lex_compare key_cell_compare key_cell_compare)).

(** The order a boolean test decides, and the rows a sort must not swap. *)
Definition leb_le {A} (leb : A -> A -> bool) (a b : A) : Prop := leb a b = true.

Definition same_key {A} (leb : A -> A -> bool) (a y : A) : bool := leb a y && leb y a.

Definition key_le (a b : txn) : Prop := key_leb a b = true.

(** The order of the order-reference column in the words of the
    specification: an unset reference is below every set one. *)
Definition order_ref_compare_absent_first (a b : option string) : comparison :=
  match a, b with
  | Some x, Some y => String.compare x y
  | None, Some _ => Lt
  | Some _, None => Gt
  | None, None => Eq
  end.

Definition key_compare_absent_first (a b : txn) : comparison :=
  then_compare (key_cell_compare (Date a) (Date b))
    (then_compare (String.compare (Platform a) (Platform b))
       (then_compare (key_cell_compare (Type_ a) (Type_ b))
          (order_ref_compare_absent_first (Order_ID a) (Order_ID b)))).

Definition key_le_absent_first (a b : txn) : Prop :=
  key_compare_absent_first a b <> Gt.

(** ** The order of the ledger, written out

    Text order: the first byte that differs decides, and a text is before
    every longer text it begins.  (On UTF-8 text this is the order of the
    code points, the order Python compares [str] by.)  It is the order of the
    text as written: "01-02-2024" is before "15-12-2023". *)
Inductive text_lt : string -> string -> Prop :=
| text_lt_longer b t : text_lt EmptyString (String b t)
| text_lt_byte a b s t :
    (N_of_ascii a < N_of_ascii b)%N -> text_lt (String a s) (String b t)
| text_lt_rest a s t : text_lt s t -> text_lt (String a s) (String a t).

(** One key column: texts in text order, and every text before an empty
    cell. *)
Inductive cell_lt : option string -> option string -> Prop :=
| cell_lt_text x y : text_lt x y -> cell_lt (Some x) (Some y)
| cell_lt_empty x : cell_lt (Some x) None.

(** Row [a] may stand above row [b]: the first of the columns Date,
    Platform, Type, Order ID in which they differ has [a] before [b]. *)
Definition ledger_le (a b : Ledger.row) : Prop :=
  cell_lt (Ledger.Date a) (Ledger.Date b) \/
  Ledger.Date a = Ledger.Date b /\
  (text_lt (Ledger.Platform a) (Ledger.Platform b) \/
   Ledger.Platform a = Ledger.Platform b /\
   (cell_lt (Ledger.Type_ a) (Ledger.Type_ b) \/
    Ledger.Type_ a = Ledger.Type_ b /\
    (cell_lt (Ledger.Order_ID a) (Ledger.Order_ID b) \/
     Ledger.Order_ID a = Ledger.Order_ID b))).

(** A ledger row without its number. *)
Definition unnumbered (row : Ledger.row) : Ledger.row :=
  {| Ledger.Sr_No := 0;
     Ledger.Date := Ledger.Date row;
     Ledger.Platform := Ledger.Platform row;
     Ledger.Type_ := Ledger.Type_ row;
     Ledger.Order_Amt := Ledger.Order_Amt row;
     Ledger.Fee := Ledger.Fee row;
     Ledger.Debit := Ledger.Debit row;
     Ledger.Credit := Ledger.Credit row;
     Ledger.Order_ID := Ledger.Order_ID row;
     Ledger.Party_Information_1 := Ledger.Party_Information_1 row;
     Ledger.Party_Information_2 := Ledger.Party_Information_2 row;
     Ledger.Party_Information_3 := Ledger.Party_Information_3 row |}.

(** ** The matcher in the words of the specification

    One claim set per source: a row with no order reference takes the first
    candidate of equal amount and date whose order id is not in the claim set
    of its own source. *)
Definition spec_match_row (pool : list order) (claims : gset string) (t : txn)
  : txn * gset string :=
  match Order_ID t with
  | Some _ => (t, claims)
  | None =>
      match List.find (not_in claims) (matching_row pool t) with
      | Some c => (annotate t c, {[ Name c ]} ∪ claims)
      | None => (t, claims)
      end
  end.

Definition spec_match_source (pool : list order) (source : list txn)
  : list txn * gset string :=
  df_apply (spec_match_row pool) ∅ source.

Definition spec_match (source_a source_b : list txn) (pool : list order)
  : list txn * list txn * list order :=
  let '(a_out, claims_a) := spec_match_source pool source_a in
  let '(b_out, claims_b) := spec_match_source pool source_b in
  (a_out, b_out,
   List.filter (fun c => bool_decide (Name c ∉ claims_a ∪ claims_b)) pool).

(** The order ids a frame carries, row by row. *)
Definition carried_refs (df : list txn) : list string :=
  omap Order_ID df.

(** * Sample data *)

Definition jan5 : date := {| year := 2024; month := 1; day := 5 |}.
Definition jan5_at (s : Z) : timestamp := {| on := jan5; second_of_day := s |}.

(** A Razorpay settlement line: its entity is neither payment nor refund. *)
Definition razorpay_settlement : Razorpay.row :=
  {| Razorpay.payment_captured_at := Blank;
     Razorpay.settled_at := Some "05/01/2024 18:30:00";
     Razorpay.transaction_entity := Some "settlement";
     Razorpay.amount := Val 1500%float;
     Razorpay.fee_exclusive_tax := Val 0%float;
     Razorpay.tax := Val 0%float |}.

Definition razorpay_payment_500 : Razorpay.row :=
  {| Razorpay.payment_captured_at := Val (jan5_at 36000);
     Razorpay.settled_at := Some "07/01/2024 18:30:00";
     Razorpay.transaction_entity := Some "payment";
     Razorpay.amount := Val 500%float;
     Razorpay.fee_exclusive_tax := Val 10%float;
     Razorpay.tax := Val 1.5%float |}.

(** A Razorpay payment whose capture time is no date. *)
Definition razorpay_bad_date : Razorpay.row :=
  {| Razorpay.payment_captured_at := Junk "2024/13/45 09:30";
     Razorpay.settled_at := Some "07/01/2024 18:30:00";
     Razorpay.transaction_entity := Some "payment";
     Razorpay.amount := Val 500%float;
     Razorpay.fee_exclusive_tax := Val 10%float;
     Razorpay.tax := Val 1.5%float |}.

(** PayTm lines; the export wraps its cells in apostrophes. *)
Definition paytm_line (date : cell timestamp) (label : string) (amt : cell float)
  : PayTm.row :=
  {| PayTm.transaction_date := date;
     PayTm.settled_date := Some "'06-01-2024 11:00:00'";
     PayTm.transaction_type := Some label;
     PayTm.amount := amt;
     PayTm.commission := Val 9%float;
     PayTm.gst := Val 1%float |}.

Definition paytm_acquiring_500 : PayTm.row :=
  paytm_line (Val (jan5_at 34200)) "'ACQUIRING'" (Val 500%float).

Definition paytm_chargeback : PayTm.row :=
  paytm_line (Val (jan5_at 34200)) "'CHARGEBACK'" (Val 500%float).

(** A transaction date in another layout than [%d-%m-%Y %H:%M:%S]. *)
Definition paytm_bad_date : PayTm.row :=
  paytm_line (Junk "2024/01/05 09:30") "'ACQUIRING'" (Val 500%float).

(** Normalized rows: amount 500 on 5 January 2024. *)
Definition sample_txn (platform kind : string) (amt : float) : txn :=
  {| TDate := Some (jan5_at 34200);
     Date := Some "06-01-2024 11:00:00";
     Platform := platform;
     Type_ := Some kind;
     Order_Amt := amt;
     Fee := 10%float;
     Debit := debit_of (Some kind) amt 10%float;
     Credit := credit_of (Some kind) amt 10%float;
     Order_ID := None;
     Party_Information_1 := None;
     Party_Information_2 := None;
     Party_Information_3 := None |}.

Definition paytm_payment : txn := sample_txn "PayTm" "payment" 500%float.
Definition paytm_refund : txn := sample_txn "PayTm" "refund" 500%float.
Definition razorpay_payment : txn := sample_txn "Razorpay" "payment" 500%float.
Definition razorpay_refund : txn := sample_txn "Razorpay" "refund" 500%float.

Definition sample_order (name : string) (total : float) : order :=
  {| Name := name;
     Total := total;
     Billing_Name := Some "A. Buyer";
     Billing_Street := Some "1 Tool Street";
     Billing_Company := None;
     Paid_at := Some (jan5_at 34000) |}.

Definition order_2001 : order := sample_order "#2001" 500%float.
Definition order_1001 : order := sample_order "#1001" 500%float.
Definition order_1002 : order := sample_order "#1002" 500%float.

(** A PayTm payment of another amount, for which the pool has no order. *)
Definition paytm_payment_700 : txn := sample_txn "PayTm" "payment" 700%float.

(** A second row of the pool with the order id of [order_2001]. *)
Definition order_2001_again : order :=
  {| Name := "#2001";
     Total := 500%float;
     Billing_Name := Some "B. Other";
     Billing_Street := None;
     Billing_Company := None;
     Paid_at := Some (jan5_at 50000) |}.

(** What [process_paytm_data] makes of [paytm_acquiring_500]. *)
Definition paytm_acquiring_500_txn : txn :=
  {| TDate := Some (jan5_at 34200);
     Date := Some "06-01-2024 11:00:00";
     Platform := "PayTm";
     Type_ := Some "payment";
     Order_Amt := 500%float;
     Fee := 10%float;
     Debit := 0%float;
     Credit := 490%float;
     Order_ID := None;
     Party_Information_1 := None;
     Party_Information_2 := None;
     Party_Information_3 := None |}.

(** A PayTm payment with the settlement date text [settled]. *)
Definition paytm_payment_settled (settled : string) : txn :=
  {| TDate := Some (jan5_at 34200);
     Date := Some settled;
     Platform := "PayTm";
     Type_ := Some "payment";
     Order_Amt := 500%float;
     Fee := 10%float;
     Debit := 0%float;
     Credit := 490%float;
     Order_ID := None;
     Party_Information_1 := None;
     Party_Information_2 := None;
     Party_Information_3 := None |}.

(** * Further notions *)

(** How an output row of the matcher relates to the row it comes from: it is
    that row, or that row with the order id and billing fields of a pool
    candidate of equal amount and date. *)
Definition taken_from (shopify_df : list order) (t t' : txn) : Prop :=
  t' = t \/
  exists c, In c shopify_df /\ is_match t c = true /\ unannotated t /\
            canonical_kind (Type_ t) /\ t' = annotate t c.

(** A row the inner function has no branch for: it carries an order already,
    or its kind is neither payment nor refund. *)
Definition passes_through (t : txn) : Prop :=
  ~ unannotated t \/ ~ canonical_kind (Type_ t).

(** A cell that converts to no value. *)
Definition missing {A} (c : cell A) : Prop :=
  c = Blank \/ exists text, c = Junk text.

(** [ch] repeated [n] times. *)
Fixpoint repeat_char (ch : ascii) (n : nat) : string :=
  match n with
  | O => EmptyString
  | S n' => String ch (repeat_char ch n')
  end.

(** A text that neither begins nor ends with [ch]. *)
Definition not_wrapped (ch : ascii) (s : string) : Prop :=
  (forall u, s <> String ch u) /\ (forall u, s <> u ++ String ch EmptyString).

Definition no_junk_date (r : PayTm.row) : Prop :=
  forall text, PayTm.transaction_date r <> Junk text.

(** * utils.py *)

Module Utils.
(** An uploaded file as [validate_csv_file] meets it: its name, and what
    [pd.read_csv] makes of it, the rows or the text of the exception. *)
Record upload (A : Type) : Type := {
  name : string;
  read_csv : string + list A
}.
Arguments name {A} _.
Arguments read_csv {A} _.
End Utils.

(** [s.endswith(suffix)] *)
Fixpoint endswith (s suffix : string) : bool :=
  String.eqb s suffix ||
  match s with
  | EmptyString => false
  | String _ s' => endswith s' suffix
  end.

(** [df.empty] *)
Definition empty {A} (df : list A) : bool :=
  match df with
  | [] => true
  | _ :: _ => false
  end.

Definition validate_csv_file {A} (file : option (Utils.upload A)) : bool * string :=
  match file with
  | None => (false, "No file uploaded")
  | Some f =>
      if negb (endswith (Utils.name f) ".csv") then (false, "Please upload a CSV file")
      else
        match Utils.read_csv f with
        | inr df =>
            if empty df then (false, "The uploaded file is empty")
            else (true, "File is valid")
        | inl e => (false, "Error reading file: " ++ e)
        end
  end.

(** * app.py *)

Module App.
(** What the keys of [st.session_state] hold. *)
Inductive value :=
| VNone
| VBool (b : bool)
| VStr (s : string)
| VLedger (final_df : list Ledger.row)
| VPool (unused_shopify_df : list order).

Inductive error :=
| MissingKey (key : string)
| TypeError.

(** What a run of the script puts on the page. *)
Inductive view :=
| Password_prompt (incorrect : bool)
| Upload_form
| Error_message (text : string)
| Results (final_df : list Ledger.row) (unused : option (list order)).
End App.

(** Truth value of an object. *)
Definition truthy (v : App.value) : bool :=
  match v with
  | App.VNone => false
  | App.VBool b => b
  | App.VStr s => negb (String.eqb s "")
  | App.VLedger _ | App.VPool _ => true
  end.

Definition is_ascii (s : string) : bool :=
  forallb (fun a => (nat_of_ascii a <? 128)%nat) (list_ascii_of_string s).

(** [hmac.compare_digest] on two [str]: it compares ASCII text only. *)
Definition compare_digest (a b : string) : App.error + bool :=
  if is_ascii a && is_ascii b then inr (String.eqb a b) else inl App.TypeError.

(** The callback of the password field.  [secret] is
    [st.secrets["password"]]. *)
Definition password_entered (secret : string) (session_state : gmap string App.value)
  : App.error + gmap string App.value :=
  match session_state !! "password" with
  | None => inl (App.MissingKey "password")
  | Some (App.VStr typed) =>
      match compare_digest typed secret with
      | inl e => inl e
      | inr true =>
          inr (delete "password" (<["password_correct" := App.VBool true]> session_state))
      | inr false => inr (<["password_correct" := App.VBool false]> session_state)
      end
  | Some _ => inl App.TypeError
  end.

(** [check_password]: what it returns, and whether it reports a wrong
    password next to the field it shows. *)
Definition check_password (session_state : gmap string App.value) : bool * option bool :=
  if truthy (default (App.VBool false) (session_state !! "password_correct"))
  then (true, None)
  else (false, Some (bool_decide (is_Some (session_state !! "password_correct")))).

(** The user types [typed] in the field: the field's value is stored under
    its key, then the callback runs; when the callback raises, the stored
    value stays. *)
Definition type_password (secret typed : string) (session_state : gmap string App.value)
  : gmap string App.value :=
  let with_field := <["password" := App.VStr typed]> session_state in
  match password_entered secret with_field with
  | inr session_state' => session_state'
  | inl _ => with_field
  end.

Fixpoint type_passwords (secret : string) (typed : list string)
    (session_state : gmap string App.value) : gmap string App.value :=
  match typed with
  | [] => session_state
  | pw :: rest => type_passwords secret rest (type_password secret pw session_state)
  end.

(** [if key not in st.session_state: st.session_state.key = default] *)
Definition setdefault (key : string) (v : App.value) (session_state : gmap string App.value)
  : gmap string App.value :=
  match session_state !! key with
  | Some _ => session_state
  | None => <[key := v]> session_state
  end.

(** [process_clicked or (not files_processed and all([...]))].  Of the
    uploads only their presence counts here. *)
Definition should_process {F1 F2 F3 : Type} (process_clicked : bool)
    (session_state : gmap string App.value)
    (paytm_file : option F1) (razorpay_file : option F2) (shopify_files : list F3) : bool :=
  process_clicked ||
  (negb (truthy (default App.VNone (session_state !! "files_processed"))) &&
   (bool_decide (is_Some paytm_file) && bool_decide (is_Some razorpay_file) &&
    negb (empty shopify_files))).

(** The results section of [main]. *)
Definition display (session_state : gmap string App.value) : App.view :=
  if truthy (default App.VNone (session_state !! "files_processed")) then
    match session_state !! "processed_data" with
    | Some (App.VLedger final_df) =>
        App.Results final_df
          match session_state !! "unused_data" with
          | Some (App.VPool unused) => Some unused
          | _ => None
          end
    | _ => App.Upload_form
    end
  else App.Upload_form.

(** One run of [main]: the session state it leaves and what it shows.
    [processing] is what the body of the [try] does with the uploads when it
    is run: it computes the two tables, or raises an exception whose text
    ([str(e)]) is given. *)
Definition main {F1 F2 F3 : Type} (process_clicked : bool)
    (paytm_file : option F1) (razorpay_file : option F2) (shopify_files : list F3)
    (processing : string + (list Ledger.row * list order))
    (session_state : gmap string App.value) : gmap string App.value * App.view :=
  let s0 :=
    setdefault "files_processed" (App.VBool false)
      (setdefault "unused_data" App.VNone
         (setdefault "processed_data" App.VNone session_state)) in
  if should_process process_clicked s0 paytm_file razorpay_file shopify_files then
    match processing with
    | inr (final_df, unused_shopify_df) =>
        let s1 :=
          <["files_processed" := App.VBool true]>
            (<["unused_data" := App.VPool unused_shopify_df]>
               (<["processed_data" := App.VLedger final_df]> s0)) in
        (s1, display s1)
    | inl text =>
        (<["files_processed" := App.VBool false]> s0,
         App.Error_message ("An error occurred during processing: " ++ text))
    end
  else (s0, display s0).

(** The script: the password gate, then [main].  What the password field
    itself keeps in the session state while it is shown is left out. *)
Definition script {F1 F2 F3 : Type} (secret : string) (process_clicked : bool)
    (paytm_file : option F1) (razorpay_file : option F2) (shopify_files : list F3)
    (processing : string + (list Ledger.row * list order))
    (session_state : gmap string App.value) : gmap string App.value * App.view :=
  match check_password session_state with
  | (true, _) =>
      main process_clicked paytm_file razorpay_file shopify_files processing session_state
  | (false, incorrect) => (session_state, App.Password_prompt (default false incorrect))
  end.

(** The gate is shut: [check_password] would return [False]. *)
Definition locked (session_state : gmap string App.value) : Prop :=
  truthy (default (App.VBool false) (session_state !! "password_correct")) = false.

(** * The normalizers *)

Lemma Type_is_true label ty : Type_is label ty = true <-> ty = Some label.
Proof.
  destruct ty as [s|]; simpl.
  - rewrite String.eqb_eq. split; [intros ->; reflexivity | congruence].
  - split; [discriminate | discriminate].
Qed.

Lemma Type_is_payment_refund ty :
  Type_is "payment" ty = true -> Type_is "refund" ty = false.
Proof. intros H%Type_is_true. subst ty. reflexivity. Qed.

Lemma mapM_Ok_In {A B} (f : A -> result B) l out b :
  mapM f l = Ok out -> In b out -> exists a, In a l /\ f a = Ok b.
Proof.
  revert out. induction l as [|a l IH]; simpl; intros out Hm Hb.
  - injection Hm as <-. destruct Hb.
  - destruct (f a) as [b'|e] eqn:Hfa; simpl in Hm; [|discriminate].
    destruct (mapM f l) as [bs|e] eqn:Hl; simpl in Hm; [|discriminate].
    injection Hm as <-. destruct Hb as [<-|Hb].
    + exists a. auto.
    + destruct (IH bs eq_refl Hb) as (a' & Ha' & Hfa'). exists a'. auto.
Qed.

Lemma mapM_Raise_In {A B} (f : A -> result B) l a e :
  In a l -> f a = Raise e -> exists e', mapM f l = Raise e'.
Proof.
  induction l as [|x l IH]; simpl; [intros []|].
  intros [->|Hin] Hfa.
  - rewrite Hfa. eauto.
  - destruct (f x); simpl; [|eauto].
    destruct (IH Hin Hfa) as [e' ->]. simpl. eauto.
Qed.

Lemma process_paytm_row_Ok r t :
  process_paytm_row r = Ok t ->
  Type_ t = paytm_type r /\ Platform t = "PayTm" /\
  Debit t = debit_of (Type_ t) (Order_Amt t) (Fee t) /\
  Credit t = credit_of (Type_ t) (Order_Amt t) (Fee t) /\
  unannotated t.
Proof.
  unfold process_paytm_row.
  destruct (to_datetime_raise (PayTm.transaction_date r)); simpl; [|discriminate].
  intros [= <-]. simpl. unfold unannotated. auto.
Qed.

Lemma process_razorpay_row_spec r :
  let t := process_razorpay_row r in
  Type_ t = Razorpay.transaction_entity r /\ Platform t = "Razorpay" /\
  Debit t = debit_of (Type_ t) (Order_Amt t) (Fee t) /\
  Credit t = credit_of (Type_ t) (Order_Amt t) (Fee t) /\
  unannotated t.
Proof. unfold unannotated. simpl. auto. Qed.

Lemma normalized_shape t :
  normalized t ->
  Debit t = debit_of (Type_ t) (Order_Amt t) (Fee t) /\
  Credit t = credit_of (Type_ t) (Order_Amt t) (Fee t) /\
  unannotated t.
Proof.
  intros [(file & df & Hdf & Hin)|(file & df & Hdf & Hin)].
  - destruct (mapM_Ok_In _ _ _ _ Hdf Hin) as (r & _ & Hr).
    apply process_paytm_row_Ok in Hr. tauto.
  - injection Hdf as <-. apply in_map_iff in Hin as (r & <- & _).
    pose proof (process_razorpay_row_spec r). simpl in *. tauto.
Qed.

Lemma normalized_razorpay r : normalized (process_razorpay_row r).
Proof.
  right. exists [r], [process_razorpay_row r]. split; [reflexivity | now left].
Qed.

Lemma normalized_paytm r t : process_paytm_row r = Ok t -> normalized t.
Proof.
  intros H. left. exists [r], [t]. split; [|now left].
  unfold process_paytm_data. simpl. rewrite H. reflexivity.
Qed.

Lemma by_kind_of ty amt fee :
  by_kind ty amt fee (debit_of ty amt fee) (credit_of ty amt fee).
Proof.
  unfold by_kind, debit_of, credit_of.
  split; [reflexivity|]. split; [reflexivity|].
  unfold exactly_one_nonzero, canonical_kind.
  destruct (Type_is "payment" ty) eqn:Hp.
  - rewrite (Type_is_payment_refund _ Hp).
    apply Type_is_true in Hp. split; [now left|].
    unfold nonzero, zero. split.
    + intros [[H _]|[_ H]]; [discriminate H|]. split; [now left | exact H].
    + intros [_ H]. right. split; [reflexivity | exact H].
  - destruct (Type_is "refund" ty) eqn:Hr.
    + apply Type_is_true in Hr. split; [now right|].
      unfold nonzero, zero. split.
      * intros [[H _]|[_ H]]; [|discriminate H]. split; [now right | exact H].
      * intros [_ H]. left. split; [exact H | reflexivity].
    + split; [now left|]. unfold nonzero, zero. split.
      * intros [[H _]|[_ H]]; discriminate H.
      * intros [[H|H] _]; apply Type_is_true in H; congruence.
Qed.

Lemma normalized_by_kind t :
  normalized t -> by_kind (Type_ t) (Order_Amt t) (Fee t) (Debit t) (Credit t).
Proof.
  intros (Hd & Hc & _)%normalized_shape. rewrite Hd, Hc. apply by_kind_of.
Qed.

(** C8, as stated, fails: a PayTm line labelled CHARGEBACK keeps its label,
    which is neither payment nor refund. *)
Lemma chargeback_label_is_kept :
  exists t, process_paytm_data [paytm_chargeback] = Ok [t] /\
            Type_ t = Some "CHARGEBACK" /\ ~ canonical_kind (Type_ t).
Proof.
  eexists. split; [reflexivity|]. split; [reflexivity|].
  intros [H|H]; discriminate H.
Qed.

Lemma replace_transaction_type_canonical s :
  canonical_kind (Some (replace_transaction_type s)) <->
  In s ["ACQUIRING"; "REFUND"; "payment"; "refund"].
Proof.
  unfold replace_transaction_type, canonical_kind.
  destruct (String.eqb_spec s "ACQUIRING") as [->|Ha].
  { split; [intros _; now left | now left]. }
  destruct (String.eqb_spec s "REFUND") as [->|Hr].
  { split; [intros _; right; now left | now right]. }
  simpl. split.
  - intros [[= ->]|[= ->]]; auto.
  - intros [<-|[<-|[<-|[<-|[]]]]]; try congruence; auto.
Qed.

Lemma mapM_Ok_Forall2 {A B} (f : A -> result B) l out :
  mapM f l = Ok out -> Forall2 (fun a b => f a = Ok b) l out.
Proof.
  revert out. induction l as [|a l IH]; simpl; intros out Hm.
  - injection Hm as <-. constructor.
  - destruct (f a) as [b|e] eqn:Hfa; simpl in Hm; [|discriminate].
    destruct (mapM f l) as [bs|e]; simpl in Hm; [|discriminate].
    injection Hm as <-. constructor; [exact Hfa | now apply IH].
Qed.

Lemma Forall2_map_same {A B} (f : A -> B) l : Forall2 (fun a b => b = f a) l (List.map f l).
Proof. induction l as [|a l IH]; simpl; constructor; auto. Qed.

(** C8, amended: [process_paytm_data] strips the apostrophes from the label,
    rewrites ACQUIRING to payment and REFUND to refund and keeps every other
    label; [process_razorpay_data] keeps the entity label as it is.  Row by
    row, in file order: the kind of the n-th returned transaction is made
    from the label of the n-th line, and it is payment or refund exactly when
    that label is ACQUIRING, REFUND, payment or refund (PayTm), or payment or
    refund (Razorpay). *)
Theorem kind_follows_source_label :
  (forall file df,
      process_paytm_data file = Ok df ->
      Forall2 (fun r t =>
                 Type_ t = option_map (fun s => replace_transaction_type (strip apostrophe s))
                                      (PayTm.transaction_type r) /\
                 (canonical_kind (Type_ t) <->
                  exists s, PayTm.transaction_type r = Some s /\
                            In (strip apostrophe s)
                               ["ACQUIRING"; "REFUND"; "payment"; "refund"]))
              file df) /\
  (forall file df,
      process_razorpay_data file = Ok df ->
      Forall2 (fun r t =>
                 Type_ t = Razorpay.transaction_entity r /\
                 (canonical_kind (Type_ t) <->
                  exists s, Razorpay.transaction_entity r = Some s /\
                            In s ["payment"; "refund"]))
              file df).
Proof.
  split.
  - intros file df Hdf. apply mapM_Ok_Forall2 in Hdf.
    eapply Forall2_impl; [exact Hdf|]. intros r t Hrow. simpl in Hrow.
    apply process_paytm_row_Ok in Hrow as (Hty & _).
    unfold paytm_type in Hty. split; [exact Hty|]. rewrite Hty.
    destruct (PayTm.transaction_type r) as [s|]; simpl.
    + rewrite replace_transaction_type_canonical. split.
      * intros H. exists s. auto.
      * intros (s' & [= <-] & H). exact H.
    + split.
      * intros [H|H]; discriminate H.
      * intros (s & H & _). discriminate H.
  - intros file df [= <-].
    eapply Forall2_impl; [apply (Forall2_map_same process_razorpay_row)|].
    intros r t ->. split; [reflexivity|]. simpl.
    unfold canonical_kind. split.
    + intros [H|H]; eexists; (split; [exact H|]); simpl; auto.
    + intros (s & -> & [<-|[<-|[]]]); auto.
Qed.

(** A REFUND line after an ACQUIRING line: each row has the kind of its own
    line. *)
Lemma kind_follows_source_label_witness :
  exists t1 t2,
    process_paytm_data
      [paytm_acquiring_500; paytm_line (Val (jan5_at 40000)) "'REFUND'" (Val 500%float)]
    = Ok [t1; t2] /\
    Type_ t1 = Some "payment" /\ Type_ t2 = Some "refund".
Proof.
  destruct (process_paytm_data
              [paytm_acquiring_500;
               paytm_line (Val (jan5_at 40000)) "'REFUND'" (Val 500%float)])
    as [df|e] eqn:Hdf; [|discriminate Hdf].
  pose proof (proj1 kind_follows_source_label _ _ Hdf) as H.
  injection Hdf as <-.
  do 2 eexists. split; [reflexivity|].
  apply Forall2_cons in H as [[H1 _] H]. apply Forall2_cons in H as [[H2 _] _].
  split; [exact H1 | exact H2].
Defined.

(** ** Values that fail to convert *)

Lemma process_razorpay_data_total file :
  exists df, process_razorpay_data file = Ok df /\ length df = length file.
Proof. eexists. split; [reflexivity|]. apply length_map. Qed.

(** A missing amount equals no total. *)
Lemma nan_amount_never_matches row c :
  Order_Amt row = nan -> is_match row c = false.
Proof.
  intros H. unfold is_match. rewrite H, FloatAxioms.eqb_spec.
  destruct (Prim2SF (Total c)); reflexivity.
Qed.

(** A missing timestamp, on either side, is on no date. *)
Lemma NaT_never_matches row c :
  TDate row = None \/ Paid_at c = None -> is_match row c = false.
Proof.
  unfold is_match, same_date. intros [-> | ->].
  - destruct (Paid_at c); apply andb_false_r.
  - apply andb_false_r.
Qed.

Lemma paytm_amount_is_soft r t text :
  process_paytm_row r = Ok t -> PayTm.amount r = Junk text ->
  forall c, is_match t c = false.
Proof.
  unfold process_paytm_row. intros H Ha c.
  destruct (to_datetime_raise (PayTm.transaction_date r)); simpl in H; [|discriminate].
  injection H as <-. apply nan_amount_never_matches. simpl. now rewrite Ha.
Qed.

Lemma razorpay_junk_is_soft r text :
  Razorpay.amount r = Junk text \/ Razorpay.payment_captured_at r = Junk text ->
  forall c, is_match (process_razorpay_row r) c = false.
Proof.
  intros [H|H] c.
  - apply nan_amount_never_matches. simpl. now rewrite H.
  - apply NaT_never_matches. left. simpl. now rewrite H.
Qed.

Lemma shopify_junk_date_is_soft r text :
  Shopify.Paid_at r = Junk text ->
  forall row, is_match row (shopify_order r) = false.
Proof.
  intros H row. apply NaT_never_matches. right. simpl. now rewrite H.
Qed.

(** The rows the normalizers return carry no order yet. *)
Lemma process_paytm_data_unannotated file df :
  process_paytm_data file = Ok df -> Forall unannotated df.
Proof.
  intros Hdf. apply Forall_forall. intros t Ht%list_elem_of_In.
  destruct (mapM_Ok_In _ _ _ _ Hdf Ht) as (r & _ & Hr).
  now apply process_paytm_row_Ok in Hr.
Qed.

Lemma process_razorpay_data_unannotated file df :
  process_razorpay_data file = Ok df -> Forall unannotated df.
Proof.
  intros [= <-]. apply Forall_forall. intros t Ht%list_elem_of_In.
  apply in_map_iff in Ht as (r & <- & _). reflexivity.
Qed.

(** A payment whose fees eat the whole amount has neither debit nor credit. *)
Lemma payment_with_fee_equal_to_amount :
  let t := process_razorpay_row
             {| Razorpay.payment_captured_at := Val (jan5_at 36000);
                Razorpay.settled_at := Some "07/01/2024 18:30:00";
                Razorpay.transaction_entity := Some "payment";
                Razorpay.amount := Val 10%float;
                Razorpay.fee_exclusive_tax := Val 8%float;
                Razorpay.tax := Val 2%float |} in
  Type_ t = Some "payment" /\ ~ exactly_one_nonzero (Debit t) (Credit t).
Proof.
  split; [reflexivity|]. unfold exactly_one_nonzero, nonzero, zero. vm_compute.
  intros [[H _]|[_ H]]; discriminate H.
Qed.

(** One line with a transaction date the format rejects ends the whole of
    [process_paytm_data]. *)
Lemma paytm_junk_date_raises file r text :
  In r file -> PayTm.transaction_date r = Junk text ->
  exists e, process_paytm_data file = Raise e.
Proof.
  intros Hin Hd. apply (mapM_Raise_In _ _ r (ValueError text) Hin).
  unfold process_paytm_row. rewrite Hd. reflexivity.
Qed.

(** C4 at the failing input: the PayTm file holds one good line and one
    whose transaction date is in another layout, and no row is returned.  The
    same kind of line in the Razorpay file is kept, with no capture time. *)
Theorem paytm_unparseable_date_aborts :
  process_paytm_data [paytm_acquiring_500; paytm_bad_date]
  = Raise (ValueError "2024/01/05 09:30") /\
  exists t, process_razorpay_data [razorpay_bad_date] = Ok [t] /\ TDate t = None.
Proof.
  split; [reflexivity|]. eexists. split; reflexivity.
Qed.

(** * The matcher *)

(** ** One call of the inner function *)

Lemma is_None_true {A} (o : option A) : is_None o = true <-> o = None.
Proof. destruct o; simpl; split; congruence. Qed.

Lemma not_in_true used c : not_in used c = true <-> Name c ∉ used.
Proof. unfold not_in. apply bool_decide_eq_true. Qed.

Lemma not_in_false used c : not_in used c = false <-> Name c ∈ used.
Proof.
  unfold not_in. rewrite bool_decide_eq_false. split.
  - intros H. destruct (decide (Name c ∈ used)); [assumption | contradiction].
  - intros H Hn. contradiction.
Qed.

Lemma matching_row_In shopify_df row c :
  In c (matching_row shopify_df row) <-> In c shopify_df /\ is_match row c = true.
Proof. apply filter_In. Qed.

Lemma find_none_no_unclaimed shopify_df used row set :
  List.find (not_in set) (matching_row shopify_df row) = None ->
  (Type_ row = Some "payment" /\ set = paytm_used_names used) \/
  (Type_ row = Some "refund" /\ set = razorpay_used_names used) ->
  forall c, In c shopify_df -> ~ unclaimed_match used row c.
Proof.
  intros Hfind Hset c Hc (Hm & Hun).
  assert (Hin : In c (matching_row shopify_df row)) by (apply matching_row_In; auto).
  pose proof (find_none _ _ Hfind c Hin) as Hused. apply not_in_false in Hused.
  destruct Hset as [(Hty & ->)|(Hty & ->)], Hun as [(Hty' & Hn)|(Hty' & Hn)];
    try contradiction; congruence.
Qed.

Lemma step_outcome_holds shopify_df used row :
  step_outcome shopify_df used row
    (match_order_id_and_party_info shopify_df used row).
Proof.
  unfold match_order_id_and_party_info.
  destruct (Type_is "payment" (Type_ row)) eqn:Hp; simpl.
  - apply Type_is_true in Hp.
    destruct (is_None (Order_ID row)) eqn:Hn; simpl.
    + apply is_None_true in Hn.
      destruct (List.find _ _) as [c|] eqn:Hfind.
      * now apply payment_claims.
      * apply left_alone. right.
        eapply find_none_no_unclaimed; [exact Hfind | auto].
    + assert (Hr : Type_is "refund" (Type_ row) = false) by (rewrite Hp; reflexivity).
      rewrite Hr. simpl. apply left_alone. left. unfold unannotated.
      intros H. apply is_None_true in H. congruence.
  - destruct (Type_is "refund" (Type_ row)) eqn:Hr; simpl.
    + apply Type_is_true in Hr.
      destruct (is_None (Order_ID row)) eqn:Hn; simpl.
      * apply is_None_true in Hn.
        destruct (List.find _ _) as [c|] eqn:Hfind.
        -- now apply refund_claims.
        -- apply left_alone. right.
           eapply find_none_no_unclaimed; [exact Hfind | auto].
      * apply left_alone. left. unfold unannotated.
        intros H. apply is_None_true in H. congruence.
    + apply left_alone. right. intros c _ (_ & [(H & _)|(H & _)]);
        apply Type_is_true in H; congruence.
Qed.

Lemma annotate_same_other_fields row c : same_other_fields row (annotate row c).
Proof. unfold same_other_fields. simpl. tauto. Qed.

Lemma same_other_fields_refl row : same_other_fields row row.
Proof. unfold same_other_fields. tauto. Qed.

Lemma step_same_other_fields shopify_df used row :
  same_other_fields row (fst (match_order_id_and_party_info shopify_df used row)).
Proof.
  destruct (step_outcome_holds shopify_df used row); simpl;
    auto using annotate_same_other_fields, same_other_fields_refl.
Qed.

(** ** The pass over a frame *)

Section Apply.
Context {State : Type} (f : State -> txn -> txn * State).

Lemma df_apply_cons st row df :
  df_apply f st (row :: df)
  = (fst (f st row) :: fst (df_apply f (snd (f st row)) df),
     snd (df_apply f (snd (f st row)) df)).
Proof.
  simpl. destruct (f st row) as [row' st1]. simpl.
  destruct (df_apply f st1 df). reflexivity.
Qed.

Lemma df_apply_app st df1 df2 :
  df_apply f st (df1 ++ df2)%list
  = ((fst (df_apply f st df1) ++ fst (df_apply f (snd (df_apply f st df1)) df2))%list,
     snd (df_apply f (snd (df_apply f st df1)) df2)).
Proof.
  revert st. induction df1 as [|row df1 IH]; intros st.
  - simpl. destruct (df_apply f st df2). reflexivity.
  - rewrite <- app_comm_cons, !df_apply_cons, IH. reflexivity.
Qed.

Lemma df_apply_length st df : length (fst (df_apply f st df)) = length df.
Proof.
  revert st. induction df as [|row df IH]; intros st; [reflexivity|].
  rewrite df_apply_cons. simpl. now rewrite IH.
Qed.

(** Row [k] of the result is [f] at row [k], in the state the rows before
    it leave. *)
Lemma df_apply_lookup st df k row :
  df !! k = Some row ->
  fst (df_apply f st df) !! k
  = Some (fst (f (snd (df_apply f st (take k df))) row)).
Proof.
  revert st k. induction df as [|r df IH]; intros st k Hk; [discriminate|].
  destruct k as [|k]; simpl in Hk.
  - injection Hk as ->. rewrite df_apply_cons. reflexivity.
  - change (take (S k) (r :: df)) with (r :: take k df).
    rewrite !df_apply_cons. simpl. now apply IH.
Qed.

Lemma df_apply_Forall2 (R : txn -> txn -> Prop) st df :
  (forall st row, R row (fst (f st row))) ->
  Forall2 R df (fst (df_apply f st df)).
Proof.
  intros HR. revert st. induction df as [|row df IH]; intros st.
  - constructor.
  - rewrite df_apply_cons. simpl. constructor; auto.
Qed.
End Apply.

(** [match_orders] is one pass over the PayTm rows followed by the Razorpay
    rows. *)
Lemma match_orders_run_eq paytm_df razorpay_df shopify_df :
  let f := match_order_id_and_party_info shopify_df in
  let used1 := snd (df_apply f no_names paytm_df) in
  let used2 := snd (df_apply f used1 razorpay_df) in
  match_orders_run paytm_df razorpay_df shopify_df
  = (fst (df_apply f no_names paytm_df), fst (df_apply f used1 razorpay_df),
     List.filter (unused used2) shopify_df, used2).
Proof.
  unfold match_orders_run. simpl.
  destruct (df_apply _ no_names paytm_df) as [po used1]. simpl.
  destruct (df_apply _ used1 razorpay_df) as [ro used2]. reflexivity.
Qed.

Lemma match_orders_visited paytm_df razorpay_df shopify_df po ro residual :
  match_orders paytm_df razorpay_df shopify_df = (po, ro, residual) ->
  df_apply (match_order_id_and_party_info shopify_df) no_names
           (visited paytm_df razorpay_df)
  = ((po ++ ro)%list, final_names paytm_df razorpay_df shopify_df) /\
  residual = List.filter (unused (final_names paytm_df razorpay_df shopify_df)) shopify_df.
Proof.
  unfold match_orders, final_names, visited.
  rewrite match_orders_run_eq. simpl. intros [= <- <- <-].
  rewrite df_apply_app. auto.
Qed.

(** ** Which candidate a row takes *)



Lemma find_filter_some {A} (p q : A -> bool) l c :
  In c l -> q c = true -> p c = true ->
  exists w, List.find p (List.filter q l) = Some w.
Proof.
  intros Hc Hq Hp.
  destruct (List.find p (List.filter q l)) as [w|] eqn:Hfind; [eauto|].
  pose proof (find_none _ _ Hfind c) as H.
  rewrite filter_In in H. rewrite H in Hp by auto. discriminate.
Qed.





Lemma match_orders_frames_same_other_fields paytm_df razorpay_df shopify_df :
  let '(paytm_out, razorpay_out, _) := match_orders paytm_df razorpay_df shopify_df in
  Forall2 same_other_fields paytm_df paytm_out /\
  Forall2 same_other_fields razorpay_df razorpay_out.
Proof.
  destruct (match_orders paytm_df razorpay_df shopify_df) as [[po ro] residual] eqn:Hrun.
  unfold match_orders in Hrun.
  rewrite match_orders_run_eq in Hrun. simpl in Hrun. injection Hrun as <- <- _.
  split; apply df_apply_Forall2, step_same_other_fields.
Qed.


(** ** The two sets and the residual pool *)

Lemma order_refs_cons t df : order_refs (t :: df) = order_ref t ∪ order_refs df.
Proof. reflexivity. Qed.

Lemma order_refs_app df1 df2 :
  order_refs (df1 ++ df2)%list = order_refs df1 ∪ order_refs df2.
Proof.
  induction df1 as [|t df1 IH]; simpl.
  - unfold order_refs at 2. simpl. set_solver.
  - rewrite !order_refs_cons, IH. set_solver.
Qed.

Lemma elem_of_order_refs n df :
  n ∈ order_refs df <-> exists t, In t df /\ Order_ID t = Some n.
Proof.
  induction df as [|t df IH].
  - unfold order_refs. simpl. split; [set_solver | intros (t & [] & _)].
  - rewrite order_refs_cons, elem_of_union, IH. unfold order_ref. split.
    + intros [H|(t' & Hin & Ht')].
      * exists t. split; [now left|]. destruct (Order_ID t); set_solver.
      * exists t'. split; [now right | exact Ht'].
    + intros (t' & [<-|Hin] & Ht').
      * left. rewrite Ht'. set_solver.
      * right. eauto.
Qed.

(** A call adds to the sets exactly the name it writes to the row. *)
Lemma step_names shopify_df used row :
  unannotated row ->
  all_names (snd (match_order_id_and_party_info shopify_df used row))
  = order_ref (fst (match_order_id_and_party_info shopify_df used row)) ∪ all_names used.
Proof.
  intros Hrow.
  destruct (step_outcome_holds shopify_df used row); unfold all_names, order_ref; simpl.
  - set_solver.
  - set_solver.
  - rewrite Hrow. set_solver.
Qed.

Lemma step_names_grow shopify_df used row :
  paytm_used_names used ⊆
    paytm_used_names (snd (match_order_id_and_party_info shopify_df used row)) /\
  razorpay_used_names used ⊆
    razorpay_used_names (snd (match_order_id_and_party_info shopify_df used row)).
Proof.
  destruct (step_outcome_holds shopify_df used row); simpl; set_solver.
Qed.

Lemma df_apply_names shopify_df used df :
  Forall unannotated df ->
  all_names (snd (df_apply (match_order_id_and_party_info shopify_df) used df))
  = order_refs (fst (df_apply (match_order_id_and_party_info shopify_df) used df))
    ∪ all_names used.
Proof.
  intros Hdf. revert used. induction Hdf as [|row df Hrow _ IH]; intros used.
  - simpl. unfold order_refs. simpl. set_solver.
  - rewrite df_apply_cons. simpl. rewrite IH, order_refs_cons, step_names by exact Hrow.
    set_solver.
Qed.

Lemma df_apply_names_grow shopify_df used df :
  all_names used
  ⊆ all_names (snd (df_apply (match_order_id_and_party_info shopify_df) used df)).
Proof.
  revert used. induction df as [|row df IH]; intros used; [reflexivity|].
  rewrite df_apply_cons. simpl. etrans; [|apply IH].
  pose proof (step_names_grow shopify_df used row) as [H1 H2].
  unfold all_names. set_solver.
Qed.

(** A name in the sets at some point of the run is in them at the end. *)
Lemma names_before_final shopify_df paytm_df razorpay_df k :
  all_names (names_before shopify_df paytm_df razorpay_df k)
  ⊆ all_names (final_names paytm_df razorpay_df shopify_df).
Proof.
  destruct (match_orders paytm_df razorpay_df shopify_df) as [[po ro] residual] eqn:Hrun.
  apply match_orders_visited in Hrun as (Hrun & _).
  unfold names_before.
  rewrite <- (take_drop k (visited paytm_df razorpay_df)) in Hrun.
  rewrite df_apply_app in Hrun. injection Hrun as _ <-.
  apply df_apply_names_grow.
Qed.

Lemma unused_all_names used c :
  unused used c = bool_decide (Name c ∉ all_names used).
Proof.
  unfold unused, not_in, all_names.
  destruct (decide (Name c ∈ paytm_used_names used)) as [H1|H1],
           (decide (Name c ∈ razorpay_used_names used)) as [H2|H2].
  - rewrite !bool_decide_eq_false_2 by set_solver. reflexivity.
  - rewrite (bool_decide_eq_false_2 (Name c ∉ paytm_used_names used)) by set_solver.
    rewrite (bool_decide_eq_false_2 (Name c ∉ _ ∪ _)) by set_solver. reflexivity.
  - rewrite (bool_decide_eq_false_2 (Name c ∉ razorpay_used_names used)) by set_solver.
    rewrite (bool_decide_eq_false_2 (Name c ∉ _ ∪ _)) by set_solver.
    apply andb_false_r.
  - rewrite !bool_decide_eq_true_2 by set_solver. reflexivity.
Qed.

Lemma filter_ext_eq {A} (f g : A -> bool) l :
  (forall x, f x = g x) -> List.filter f l = List.filter g l.
Proof.
  intros H. induction l as [|x l IH]; simpl; [reflexivity|].
  rewrite H, IH. reflexivity.
Qed.

(** C5: on frames as the normalizers return them, the residual pool is the
    pool without the candidates whose order id is in one of the claim sets;
    the claim sets together hold exactly the order ids the annotated frames
    refer to; and no annotated transaction refers to a residual candidate. *)
Theorem residual_pool_is_pool_minus_claims paytm_df razorpay_df shopify_df :
  Forall unannotated paytm_df -> Forall unannotated razorpay_df ->
  let '(paytm_out, razorpay_out, residual) :=
    match_orders paytm_df razorpay_df shopify_df in
  let used := final_names paytm_df razorpay_df shopify_df in
  residual
  = List.filter (fun c => bool_decide
                            (Name c ∉ paytm_used_names used ∪ razorpay_used_names used))
                shopify_df /\
  paytm_used_names used ∪ razorpay_used_names used
  = order_refs paytm_out ∪ order_refs razorpay_out /\
  forall c, In c residual ->
    forall t, In t (paytm_out ++ razorpay_out)%list -> Order_ID t <> Some (Name c).
Proof.
  intros Hp Hr.
  destruct (match_orders paytm_df razorpay_df shopify_df) as [[po ro] residual] eqn:Hrun.
  apply match_orders_visited in Hrun as (Hrun & ->).
  set (used := final_names paytm_df razorpay_df shopify_df) in *.
  assert (Hnames : all_names used = order_refs po ∪ order_refs ro).
  { pose proof (df_apply_names shopify_df no_names (visited paytm_df razorpay_df)) as H.
    rewrite Hrun in H. simpl in H. rewrite H.
    - rewrite order_refs_app. unfold all_names, no_names. simpl. set_solver.
    - unfold visited. apply Forall_app. auto. }
  split; [apply filter_ext_eq, unused_all_names|].
  split; [exact Hnames|].
  intros c Hc t Ht Hid.
  apply filter_In in Hc as (_ & Hc). rewrite unused_all_names in Hc.
  apply bool_decide_eq_true in Hc. apply Hc. rewrite Hnames, <- order_refs_app.
  apply elem_of_order_refs. eauto.
Qed.

(** C9: once an order id enters a claim set, at any point of the run, no
    row of the pool with that order id is in the residual pool, however many
    rows carry it. *)
Theorem claimed_order_id_leaves_no_row paytm_df razorpay_df shopify_df k n :
  n ∈ all_names (names_before shopify_df paytm_df razorpay_df k) ->
  let '(_, _, residual) := match_orders paytm_df razorpay_df shopify_df in
  forall c, In c shopify_df -> Name c = n -> ~ In c residual.
Proof.
  intros Hn%names_before_final.
  destruct (match_orders paytm_df razorpay_df shopify_df) as [[po ro] residual] eqn:Hrun.
  apply match_orders_visited in Hrun as (_ & ->).
  intros c _ <- Hc. apply filter_In in Hc as (_ & Hc).
  rewrite unused_all_names in Hc. apply bool_decide_eq_true in Hc. contradiction.
Qed.

(** ** Claims within one kind *)

Lemma kind_refs_cons kind t df :
  kind_refs kind (t :: df)
  = ((if Type_is kind (Type_ t)
      then match Order_ID t with Some n => [n] | None => [] end
      else []) ++ kind_refs kind df)%list.
Proof. reflexivity. Qed.

Lemma kind_refs_unannotated kind t df :
  unannotated t -> kind_refs kind (t :: df) = kind_refs kind df.
Proof.
  intros H. rewrite kind_refs_cons, H. now destruct (Type_is kind (Type_ t)).
Qed.

Lemma kind_refs_annotate kind row c df :
  kind_refs kind (annotate row c :: df)
  = if Type_is kind (Type_ row) then Name c :: kind_refs kind df else kind_refs kind df.
Proof. rewrite kind_refs_cons. simpl. now destruct (Type_is kind (Type_ row)). Qed.

(** The names written to payment rows are pairwise different and not in the
    payment set the pass starts from; likewise for refund rows. *)
Lemma df_apply_exclusive shopify_df used df :
  Forall unannotated df ->
  let out := fst (df_apply (match_order_id_and_party_info shopify_df) used df) in
  (NoDup (kind_refs "payment" out) /\
   Forall (fun n => n ∉ paytm_used_names used) (kind_refs "payment" out)) /\
  (NoDup (kind_refs "refund" out) /\
   Forall (fun n => n ∉ razorpay_used_names used) (kind_refs "refund" out)).
Proof.
  intros Hdf. revert used. induction Hdf as [|row df Hrow _ IH]; intros used.
  { simpl. repeat split; constructor. }
  cbv zeta in *. rewrite df_apply_cons. cbn [fst].
  specialize (IH (snd (match_order_id_and_party_info shopify_df used row))).
  revert IH.
  destruct (step_outcome_holds shopify_df used row) as [c Hty _ Hfind|c Hty _ Hfind|_];
    cbn [fst snd paytm_used_names razorpay_used_names]; intros [[Hp Hpn] [Hr Hrn]].
  - apply find_some in Hfind as (_ & Hc%not_in_true).
    rewrite !kind_refs_annotate, Hty. simpl. split; [|auto].
    rewrite Forall_forall in Hpn. split.
    + apply NoDup_cons. split; [|exact Hp]. intros Hin. apply (Hpn _ Hin). set_solver.
    + apply Forall_cons. split; [exact Hc|]. apply Forall_forall.
      intros n Hn. specialize (Hpn n Hn). set_solver.
  - apply find_some in Hfind as (_ & Hc%not_in_true).
    rewrite !kind_refs_annotate, Hty. simpl. split; [auto|].
    rewrite Forall_forall in Hrn. split.
    + apply NoDup_cons. split; [|exact Hr]. intros Hin. apply (Hrn _ Hin). set_solver.
    + apply Forall_cons. split; [exact Hc|]. apply Forall_forall.
      intros n Hn. specialize (Hrn n Hn). set_solver.
  - rewrite !kind_refs_unannotated by exact Hrow. auto.
Qed.

(** What the code keeps exclusive: over both frames together, no two
    payment rows carry the same order id, and no two refund rows do. *)
Lemma claims_exclusive_within_kind paytm_df razorpay_df shopify_df :
  Forall unannotated paytm_df -> Forall unannotated razorpay_df ->
  let '(paytm_out, razorpay_out, _) := match_orders paytm_df razorpay_df shopify_df in
  NoDup (kind_refs "payment" (paytm_out ++ razorpay_out)%list) /\
  NoDup (kind_refs "refund" (paytm_out ++ razorpay_out)%list).
Proof.
  intros Hp Hr.
  destruct (match_orders paytm_df razorpay_df shopify_df) as [[po ro] residual] eqn:Hrun.
  apply match_orders_visited in Hrun as (Hrun & _).
  pose proof (df_apply_exclusive shopify_df no_names (visited paytm_df razorpay_df)) as H.
  rewrite Hrun in H. simpl in H.
  destruct H as [[H1 _] [H2 _]]; [|auto].
  unfold visited. apply Forall_app. auto.
Qed.

(** The set a row consults depends on its kind and not on its platform. *)
Lemma inner_function_ignores_platform shopify_df used row platform :
  let row' := {| TDate := TDate row; Date := Date row; Platform := platform;
                 Type_ := Type_ row; Order_Amt := Order_Amt row; Fee := Fee row;
                 Debit := Debit row; Credit := Credit row; Order_ID := Order_ID row;
                 Party_Information_1 := Party_Information_1 row;
                 Party_Information_2 := Party_Information_2 row;
                 Party_Information_3 := Party_Information_3 row |} in
  snd (match_order_id_and_party_info shopify_df used row')
  = snd (match_order_id_and_party_info shopify_df used row) /\
  Order_ID (fst (match_order_id_and_party_info shopify_df used row'))
  = Order_ID (fst (match_order_id_and_party_info shopify_df used row)).
Proof.
  unfold match_order_id_and_party_info, matching_row, is_match. simpl.
  destruct (Type_is "payment" (Type_ row) && is_None (Order_ID row)).
  { destruct (List.find _ _); auto. }
  destruct (Type_is "refund" (Type_ row) && is_None (Order_ID row)); [|auto].
  destruct (List.find _ _); auto.
Qed.

(** ** Against one claim set per source *)

Lemma carried_refs_cons t df :
  carried_refs (t :: df)
  = (match Order_ID t with Some n => [n] | None => [] end ++ carried_refs df)%list.
Proof. unfold carried_refs. simpl. now destruct (Order_ID t). Qed.

(** With one claim set per source, the order ids a source carries are
    pairwise different. *)
Lemma spec_match_source_exclusive pool claims source :
  Forall unannotated source ->
  let out := fst (df_apply (spec_match_row pool) claims source) in
  NoDup (carried_refs out) /\ Forall (fun n => n ∉ claims) (carried_refs out).
Proof.
  intros Hsrc. revert claims. induction Hsrc as [|t source Ht _ IH]; intros claims.
  { simpl. split; constructor. }
  cbv zeta in *. rewrite df_apply_cons. cbn [fst].
  specialize (IH (snd (spec_match_row pool claims t))). revert IH.
  unfold spec_match_row. rewrite Ht.
  destruct (List.find _ _) as [c|] eqn:Hfind; cbn [fst snd]; intros [Hnd Hout].
  - apply find_some in Hfind as (_ & Hc%not_in_true).
    rewrite carried_refs_cons. simpl. rewrite Forall_forall in Hout. split.
    + apply NoDup_cons. split; [|exact Hnd]. intros Hin. apply (Hout _ Hin). set_solver.
    + apply Forall_cons. split; [exact Hc|]. apply Forall_forall.
      intros n Hn. specialize (Hout n Hn). set_solver.
  - rewrite carried_refs_cons, Ht. simpl. auto.
Qed.

(** C1 at the failing input: a PayTm payment and a Razorpay payment of the
    same amount on the same day, one order in the pool.  The PayTm row claims
    the order; the Razorpay row finds it in [paytm_used_names] and stays
    without an order.  With one claim set per source the Razorpay row takes
    the order too. *)
Theorem payment_claim_blocks_other_source :
  match_orders [paytm_payment] [razorpay_payment] [order_2001]
  = ([annotate paytm_payment order_2001], [razorpay_payment], []) /\
  spec_match [paytm_payment] [razorpay_payment] [order_2001]
  = ([annotate paytm_payment order_2001], [annotate razorpay_payment order_2001], []).
Proof. split; vm_compute; reflexivity. Qed.

(** Two sources do reach the same order when one row is a payment and the
    other a refund. *)
Lemma payment_and_refund_of_two_sources_share_an_order :
  match_orders [paytm_payment] [razorpay_refund] [order_2001]
  = ([annotate paytm_payment order_2001], [annotate razorpay_refund order_2001], []).
Proof. vm_compute. reflexivity. Qed.

(** C2 at the failing input: a PayTm payment and a PayTm refund of the same
    amount on the same day, one order in the pool.  Both rows of the PayTm
    frame come back with that order.  With one claim set per source the
    refund stays without an order. *)
Theorem payment_and_refund_of_one_source_share_an_order :
  match_orders [paytm_payment; paytm_refund] [] [order_2001]
  = ([annotate paytm_payment order_2001; annotate paytm_refund order_2001], [], []) /\
  carried_refs (fst (fst (match_orders [paytm_payment; paytm_refund] [] [order_2001])))
  = ["#2001"; "#2001"] /\
  spec_match [paytm_payment; paytm_refund] [] [order_2001]
  = ([annotate paytm_payment order_2001; paytm_refund], [], []).
Proof. repeat split; vm_compute; reflexivity. Qed.

(** * Sorting *)

Section SortFacts.
Context {A : Type} (leb : A -> A -> bool).
Hypothesis leb_total : forall a b, leb a b = true \/ leb b a = true.
Hypothesis leb_trans : forall a b c, leb a b = true -> leb b c = true -> leb a c = true.

Lemma insert_sorted_Permutation x l : Permutation (insert_sorted leb x l) (x :: l).
Proof.
  induction l as [|y l IH]; simpl; [reflexivity|].
  destruct (leb x y); [reflexivity|].
  rewrite IH. apply perm_swap.
Qed.

Lemma sort_values_Permutation l : Permutation (sort_values leb l) l.
Proof.
  induction l as [|x l IH]; simpl; [reflexivity|].
  rewrite insert_sorted_Permutation. now constructor.
Qed.

Lemma sort_values_length l : length (sort_values leb l) = length l.
Proof. apply Permutation_length, sort_values_Permutation. Qed.

Lemma insert_sorted_StronglySorted x l :
  StronglySorted (leb_le leb) l -> StronglySorted (leb_le leb) (insert_sorted leb x l).
Proof.
  induction 1 as [|y l Hl IH Hy]; simpl.
  - repeat constructor.
  - destruct (leb x y) eqn:Hxy.
    + constructor; [now constructor|]. constructor; [exact Hxy|].
      eapply Forall_impl; [exact Hy|]. intros z Hz. exact (leb_trans _ _ _ Hxy Hz).
    + constructor; [exact IH|].
      assert (Hyx : leb_le leb y x) by (destruct (leb_total x y); [congruence | assumption]).
      apply Forall_forall. intros z Hz%list_elem_of_In.
      apply (Permutation_in _ (insert_sorted_Permutation x l)) in Hz.
      destruct Hz as [<-|Hz]; [exact Hyx|].
      rewrite Forall_forall in Hy. apply Hy. now apply list_elem_of_In.
Qed.

Lemma sort_values_StronglySorted l : StronglySorted (leb_le leb) (sort_values leb l).
Proof.
  induction l as [|x l IH]; simpl; [constructor|].
  now apply insert_sorted_StronglySorted.
Qed.

(** Rows with equal keys keep the order they had. *)
Lemma insert_sorted_stable a x l :
  List.filter (same_key leb a) (insert_sorted leb x l)
  = List.filter (same_key leb a) (x :: l).
Proof.
  induction l as [|y l IH]; [reflexivity|].
  simpl insert_sorted. destruct (leb x y) eqn:Hxy; [reflexivity|].
  simpl in *. rewrite IH.
  destruct (same_key leb a x) eqn:Hax, (same_key leb a y) eqn:Hay; try reflexivity.
  unfold same_key in *.
  apply andb_prop in Hax as [_ Hxa]. apply andb_prop in Hay as [Hay _].
  rewrite (leb_trans _ _ _ Hxa Hay) in Hxy. discriminate.
Qed.

Lemma sort_values_stable a l :
  List.filter (same_key leb a) (sort_values leb l) = List.filter (same_key leb a) l.
Proof.
  induction l as [|x l IH]; [reflexivity|].
  simpl sort_values. rewrite insert_sorted_stable. simpl. now rewrite IH.
Qed.
End SortFacts.

(** ** The comparisons *)

Lemma then_compare_opp c r :
  CompOpp (then_compare c r) = then_compare (CompOpp c) (CompOpp r).
Proof. now destruct c. Qed.

Lemma string_compare_refl s : String.compare s s = Eq.
Proof.
  pose proof (String.compare_antisym s s) as H.
  destruct (String.compare s s); simpl in H; congruence.
Qed.

#[local] Instance string_TotalCompare : TotalCompare String.compare.
Proof.
  split.
  - intros a b. split; [apply String.compare_eq_iff|].
    intros ->. apply string_compare_refl.
  - intros a b. apply String.compare_antisym.
  - intros a b c Hab Hbc.
    assert (Hac : String.le a c).
    { transitivity b; unfold String.le, String.leb.
      - now rewrite Hab.
      - now rewrite Hbc. }
    unfold String.le, String.leb in Hac.
    destruct (String.compare a c) eqn:H; [|reflexivity|destruct Hac].
    apply String.compare_eq_iff in H. subst c.
    rewrite String.compare_antisym, Hab in Hbc. discriminate.
Qed.

#[local] Instance key_cell_TotalCompare : TotalCompare key_cell_compare.
Proof.
  split.
  - intros [a|] [b|]; simpl; try (split; congruence).
    rewrite (cmp_eq (cmp := String.compare)). split; congruence.
  - intros [a|] [b|]; simpl; try reflexivity. apply cmp_opp.
  - intros [a|] [b|] [c|]; simpl; try congruence. apply cmp_lt_trans.
Qed.

#[local] Instance lex_TotalCompare {A B} (cmpA : A -> A -> comparison)
    (cmpB : B -> B -> comparison) `{!TotalCompare cmpA, !TotalCompare cmpB} :
  TotalCompare (lex_compare cmpA cmpB).
Proof.
  split.
  - intros [a1 b1] [a2 b2]. unfold lex_compare. simpl.
    destruct (cmpA a1 a2) eqn:Ha; simpl.
    + apply cmp_eq in Ha as ->. rewrite (cmp_eq (cmp := cmpB)).
      split; [intros ->; reflexivity | congruence].
    + split; [discriminate|]. intros [= -> _].
      rewrite (proj2 (cmp_eq a2 a2) eq_refl) in Ha. discriminate.
    + split; [discriminate|]. intros [= -> _].
      rewrite (proj2 (cmp_eq a2 a2) eq_refl) in Ha. discriminate.
  - intros [a1 b1] [a2 b2]. unfold lex_compare. simpl.
    rewrite then_compare_opp, <- !cmp_opp. reflexivity.
  - intros [a1 b1] [a2 b2] [a3 b3]. unfold lex_compare. simpl.
    destruct (cmpA a1 a2) eqn:H12; simpl; [|intros _|discriminate].
    + apply cmp_eq in H12 as ->.
      destruct (cmpA a2 a3); simpl; [|reflexivity|discriminate]. apply cmp_lt_trans.
    + destruct (cmpA a2 a3) eqn:H23; simpl; [|intros _|discriminate].
      * apply cmp_eq in H23 as <-. rewrite H12. reflexivity.
      * rewrite (cmp_lt_trans _ _ _ H12 H23). reflexivity.
Qed.

Section CompareFacts.
Context {A : Type} (cmp : A -> A -> comparison) `{!TotalCompare cmp}.

Lemma cmp_leb_total a b : cmp_leb cmp a b = true \/ cmp_leb cmp b a = true.
Proof.
  unfold cmp_leb. rewrite (cmp_opp a b). destruct (cmp a b); simpl; auto.
Qed.

Lemma cmp_leb_trans a b c :
  cmp_leb cmp a b = true -> cmp_leb cmp b c = true -> cmp_leb cmp a c = true.
Proof.
  unfold cmp_leb.
  destruct (cmp a b) eqn:Hab; [|intros _|discriminate].
  - apply cmp_eq in Hab as ->. auto.
  - destruct (cmp b c) eqn:Hbc; [|intros _|discriminate].
    + apply cmp_eq in Hbc as <-. rewrite Hab. reflexivity.
    + rewrite (cmp_lt_trans _ _ _ Hab Hbc). reflexivity.
Qed.
End CompareFacts.

Lemma key_leb_sort_key a b :
  key_leb a b = cmp_leb sort_key_compare (sort_key a) (sort_key b).
Proof. reflexivity. Qed.

Lemma key_leb_total a b : key_leb a b = true \/ key_leb b a = true.
Proof. rewrite !key_leb_sort_key. apply (cmp_leb_total sort_key_compare). Qed.

Lemma key_leb_trans a b c :
  key_leb a b = true -> key_leb b c = true -> key_leb a c = true.
Proof. rewrite !key_leb_sort_key. apply (cmp_leb_trans sort_key_compare). Qed.

Lemma Name_leb_total a b : Name_leb a b = true \/ Name_leb b a = true.
Proof. apply String.leb_total. Qed.

Lemma Name_leb_trans a b c :
  Name_leb a b = true -> Name_leb b c = true -> Name_leb a c = true.
Proof.
  unfold Name_leb. intros H1%Is_true_true H2%Is_true_true. apply Is_true_true.
  exact (transitivity (R := String.le) H1 H2).
Qed.

(** ** The pool after [sort_values("Name")] *)

Lemma sort_by_Name_sorted shopify_df :
  StronglySorted Name_le (sort_values Name_leb shopify_df) /\
  Permutation (sort_values Name_leb shopify_df) shopify_df.
Proof.
  split; [|apply sort_values_Permutation].
  apply (sort_values_StronglySorted Name_leb).
  - apply Name_leb_total.
  - apply Name_leb_trans.
Qed.

(** * The combiner *)

Lemma number_rows_from (s : nat) (df : list txn) :
  let rows := List.map (fun '(sr_no, t) => ledger_row sr_no t)
                       (List.combine (List.seq s (length df)) df) in
  List.map Ledger.Sr_No rows = List.seq s (length df) /\
  forall i t, df !! i = Some t -> rows !! i = Some (ledger_row (s + i) t).
Proof.
  revert s. induction df as [|t df IH]; intros s; simpl.
  - split; [reflexivity|]. intros i t H. discriminate H.
  - destruct (IH (S s)) as [IH1 IH2]. split.
    + f_equal. exact IH1.
    + intros [|i] t' H; simpl in *.
      * injection H as ->. now rewrite Nat.add_0_r.
      * rewrite (IH2 i t' H). do 2 f_equal. lia.
Qed.

Lemma key_le_same_group a b :
  key_le a b -> Date a = Date b -> Platform a = Platform b -> Type_ a = Type_ b ->
  key_cell_compare (Order_ID a) (Order_ID b) <> Gt.
Proof.
  unfold key_le, key_leb, key_compare. intros H Hd Hp Hty.
  rewrite Hd, Hp, Hty in H.
  rewrite (proj2 (cmp_eq (cmp := key_cell_compare) (Date b) (Date b)) eq_refl) in H.
  rewrite string_compare_refl in H.
  rewrite (proj2 (cmp_eq (cmp := key_cell_compare) (Type_ b) (Type_ b)) eq_refl) in H.
  simpl in H. intros Hgt. rewrite Hgt in H. discriminate.
Qed.


(** ** The order of the ledger *)

Lemma string_compare_Lt x y : String.compare x y = Lt <-> text_lt x y.
Proof.
  revert y. induction x as [|a x IH]; intros [|b y]; simpl.
  - split; [discriminate | intros H; inversion H].
  - split; [constructor | reflexivity].
  - split; [discriminate | intros H; inversion H].
  - unfold Ascii.compare. destruct (N.compare_spec (N_of_ascii a) (N_of_ascii b)) as [He|Hl|Hg].
    + assert (a = b) as <-.
      { rewrite <- (ascii_N_embedding a), <- (ascii_N_embedding b). now rewrite He. }
      rewrite IH. split; [apply text_lt_rest|].
      intros H. inversion H; subst; [lia | assumption].
    + split; [intros _; now apply text_lt_byte | reflexivity].
    + split; [discriminate|]. intros H. inversion H; subst; lia.
Qed.

Lemma key_cell_compare_Lt a b : key_cell_compare a b = Lt <-> cell_lt a b.
Proof.
  destruct a as [x|], b as [y|]; simpl.
  - rewrite string_compare_Lt. split; [apply cell_lt_text | intros H; now inversion H].
  - split; [constructor | reflexivity].
  - split; [discriminate | intros H; inversion H].
  - split; [discriminate | intros H; inversion H].
Qed.

Lemma key_le_ledger_le a b n m :
  key_le a b -> ledger_le (ledger_row n a) (ledger_row m b).
Proof.
  unfold key_le, key_leb, key_compare, ledger_le. simpl. intros H.
  destruct (key_cell_compare (Date a) (Date b)) eqn:Hd; simpl in H;
    [|left; now apply key_cell_compare_Lt|discriminate H].
  apply cmp_eq in Hd. right. split; [exact Hd|].
  destruct (String.compare (Platform a) (Platform b)) eqn:Hp; simpl in H;
    [|left; now apply string_compare_Lt|discriminate H].
  apply cmp_eq in Hp. right. split; [exact Hp|].
  destruct (key_cell_compare (Type_ a) (Type_ b)) eqn:Ht; simpl in H;
    [|left; now apply key_cell_compare_Lt|discriminate H].
  apply cmp_eq in Ht. right. split; [exact Ht|].
  destruct (key_cell_compare (Order_ID a) (Order_ID b)) eqn:Ho;
    [|left; now apply key_cell_compare_Lt|discriminate H].
  right. now apply cmp_eq in Ho.
Qed.

Lemma numbered_In (s : nat) (df : list txn) row :
  In row (List.map (fun '(sr_no, t) => ledger_row sr_no t)
                   (List.combine (List.seq s (length df)) df)) ->
  exists n t, In t df /\ row = ledger_row n t.
Proof.
  intros H. apply in_map_iff in H as ([n t] & <- & Hin).
  exists n, t. split; [|reflexivity]. eapply in_combine_r. exact Hin.
Qed.

Lemma numbered_sorted (s : nat) (df : list txn) :
  StronglySorted key_le df ->
  StronglySorted ledger_le
    (List.map (fun '(sr_no, t) => ledger_row sr_no t)
              (List.combine (List.seq s (length df)) df)).
Proof.
  intros Hs. revert s. induction Hs as [|t df Hdf IH Ht]; intros s; simpl; [constructor|].
  constructor; [apply IH|].
  apply Forall_forall. intros row Hrow%list_elem_of_In.
  apply numbered_In in Hrow as (n & u & Hu & ->).
  apply key_le_ledger_le. rewrite Forall_forall in Ht. apply Ht. now apply list_elem_of_In.
Qed.

Lemma numbered_unnumbered (s : nat) (df : list txn) :
  List.map unnumbered
    (List.map (fun '(sr_no, t) => ledger_row sr_no t)
              (List.combine (List.seq s (length df)) df))
  = List.map (ledger_row 0) df.
Proof.
  revert s. induction df as [|t df IH]; intros s; simpl; [reflexivity|].
  f_equal. apply IH.
Qed.

(** The frames [match_orders] returns for two PayTm payments of which the
    second alone has an order. *)
Lemma second_payment_alone_is_matched :
  match_orders [paytm_payment_700; paytm_payment] [] [order_2001]
  = ([paytm_payment_700; annotate paytm_payment order_2001], [], []).
Proof. vm_compute. reflexivity. Qed.

(** C7, as stated, fails: of two rows with the same settlement date,
    platform and kind, the one with no order reference comes after the one
    with an order reference; and the settlement dates come in the order of
    their text, 1 February 2024 above 15 December 2023. *)
Lemma unset_order_ref_sorts_after_set :
  List.map Ledger.Order_ID
    (combine_and_format_data [paytm_payment_700; annotate paytm_payment order_2001] [])
  = [Some "#2001"; None] /\
  ~ StronglySorted key_le_absent_first
      (sorted_ledger [paytm_payment_700; annotate paytm_payment order_2001] []) /\
  List.map Ledger.Date
    (combine_and_format_data
       [paytm_payment_settled "15-12-2023 11:00:00";
        paytm_payment_settled "01-02-2024 11:00:00"] [])
  = [Some "01-02-2024 11:00:00"; Some "15-12-2023 11:00:00"].
Proof.
  split; [vm_compute; reflexivity|]. split; [|vm_compute; reflexivity].
  intros H. change (sorted_ledger _ _)
    with [annotate paytm_payment order_2001; paytm_payment_700] in H.
  apply StronglySorted_inv in H as [_ H]. apply Forall_inv in H.
  apply H. vm_compute. reflexivity.
Qed.

(** Rows with the same key keep the order of the concatenated frames. *)
Lemma sorted_ledger_stable paytm_df razorpay_df t :
  List.filter (same_key key_leb t) (sorted_ledger paytm_df razorpay_df)
  = List.filter (same_key key_leb t) (paytm_df ++ razorpay_df)%list.
Proof. apply sort_values_stable. apply key_leb_trans. Qed.

(** C7, amended: the merged ledger holds the rows of both frames, each once,
    in ascending order of (settlement date, platform, kind, order reference),
    every column compared as text, byte by byte: the settlement date is the
    text of the source column, so the dates come in the order of their text,
    not of the calendar.  In each column an empty cell comes after every
    text, so within one date, platform and kind the rows with an order
    reference come first, by ascending reference, and the rows without one
    after them.  The sequence numbers are 1, 2, ..., N in that order. *)
Theorem ledger_sorted_unset_last_and_numbered paytm_df razorpay_df :
  let final_df := sorted_ledger paytm_df razorpay_df in
  let ledger := combine_and_format_data paytm_df razorpay_df in
  Permutation final_df (paytm_df ++ razorpay_df)%list /\
  StronglySorted key_le final_df /\
  (forall a b,
      key_le a b -> Date a = Date b -> Platform a = Platform b -> Type_ a = Type_ b ->
      match Order_ID a, Order_ID b with
      | Some x, Some y => String.leb x y = true
      | None, Some _ => False
      | _, None => True
      end) /\
  List.map Ledger.Sr_No ledger = List.seq 1 (length paytm_df + length razorpay_df) /\
  (forall i t, final_df !! i = Some t -> ledger !! i = Some (ledger_row (S i) t)) /\
  StronglySorted ledger_le ledger /\
  Permutation (List.map unnumbered ledger)
              (List.map (ledger_row 0) (paytm_df ++ razorpay_df)%list).
Proof.
  intros final_df ledger.
  assert (Hperm : Permutation final_df (paytm_df ++ razorpay_df)%list)
    by apply sort_values_Permutation.
  assert (Hsorted : StronglySorted key_le final_df)
    by apply (sort_values_StronglySorted key_leb key_leb_total key_leb_trans).
  split; [exact Hperm|]. split; [exact Hsorted|].
  split.
  { intros a b Hle Hd Hp Hty. pose proof (key_le_same_group a b Hle Hd Hp Hty) as H.
    destruct (Order_ID a) as [x|], (Order_ID b) as [y|]; simpl in H; try tauto.
    unfold String.leb. now destruct (String.compare x y). }
  destruct (number_rows_from 1 final_df) as [Hnum Hrow].
  split.
  { unfold ledger, combine_and_format_data, number_rows. fold final_df.
    rewrite Hnum, (Permutation_length Hperm), length_app. reflexivity. }
  split; [exact Hrow|]. split.
  - apply numbered_sorted. exact Hsorted.
  - unfold ledger, combine_and_format_data, number_rows. fold final_df.
    rewrite numbered_unnumbered. now apply Permutation_map.
Qed.

(** * From the normalizers to the ledger *)

Lemma Forall2_In_r {A B} (R : A -> B -> Prop) l l' b :
  Forall2 R l l' -> In b l' -> exists a, In a l /\ R a b.
Proof.
  induction 1 as [|a b' l l' Hab _ IH]; intros Hb; [destruct Hb|].
  destruct Hb as [<-|Hb].
  - exists a. split; [now left | exact Hab].
  - destruct (IH Hb) as (a' & Ha' & HR). exists a'. split; [now right | exact HR].
Qed.

Lemma number_rows_In row final_df :
  In row (number_rows final_df) ->
  exists t, In t final_df /\ row = ledger_row (Ledger.Sr_No row) t.
Proof.
  unfold number_rows. intros H. apply in_map_iff in H as ([sr_no t] & <- & Hin).
  exists t. split; [|reflexivity]. eapply in_combine_r. exact Hin.
Qed.

Lemma combine_and_format_data_In row paytm_df razorpay_df :
  In row (combine_and_format_data paytm_df razorpay_df) ->
  exists t, In t (paytm_df ++ razorpay_df)%list /\ row = ledger_row (Ledger.Sr_No row) t.
Proof.
  intros (t & Ht & Hrow)%number_rows_In. exists t. split; [|exact Hrow].
  eapply Permutation_in; [|exact Ht]. apply sort_values_Permutation.
Qed.

Lemma same_other_fields_by_kind t t' :
  same_other_fields t t' ->
  by_kind (Type_ t) (Order_Amt t) (Fee t) (Debit t) (Credit t) ->
  by_kind (Type_ t') (Order_Amt t') (Fee t') (Debit t') (Credit t').
Proof.
  intros (_ & _ & _ & -> & -> & -> & -> & ->). auto.
Qed.

(** C3, as stated, fails: a Razorpay settlement line is returned with both
    Debit and Credit equal to 0. *)
Lemma settlement_line_has_no_debit_no_credit :
  normalized (process_razorpay_row razorpay_settlement) /\
  Debit (process_razorpay_row razorpay_settlement) = 0%float /\
  Credit (process_razorpay_row razorpay_settlement) = 0%float /\
  ~ exactly_one_nonzero (Debit (process_razorpay_row razorpay_settlement))
                        (Credit (process_razorpay_row razorpay_settlement)).
Proof.
  split; [apply normalized_razorpay|].
  split; [reflexivity|]. split; [reflexivity|].
  unfold exactly_one_nonzero, nonzero, zero. vm_compute.
  intros [[H _]|[_ H]]; discriminate H.
Qed.

(** C3, amended: for every transaction the normalizers return, and so for
    every row of the final ledger, Debit is gross amount minus fee when the
    kind is refund and 0 otherwise, Credit is gross amount minus fee when the
    kind is payment and 0 otherwise; so one of the two is exactly 0, and
    exactly one is nonzero precisely when the kind is payment or refund and
    gross amount minus fee is nonzero. *)
Theorem debit_credit_by_kind :
  (forall t, normalized t ->
             by_kind (Type_ t) (Order_Amt t) (Fee t) (Debit t) (Credit t)) /\
  (forall paytm_file razorpay_file paytm_df razorpay_df shopify_df,
      process_paytm_data paytm_file = Ok paytm_df ->
      process_razorpay_data razorpay_file = Ok razorpay_df ->
      let '(paytm_out, razorpay_out, _) := match_orders paytm_df razorpay_df shopify_df in
      forall row, In row (combine_and_format_data paytm_out razorpay_out) ->
        by_kind (Ledger.Type_ row) (Ledger.Order_Amt row) (Ledger.Fee row)
                (Ledger.Debit row) (Ledger.Credit row)).
Proof.
  split; [exact normalized_by_kind|].
  intros paytm_file razorpay_file paytm_df razorpay_df shopify_df Hp Hr.
  pose proof (match_orders_frames_same_other_fields
                paytm_df razorpay_df shopify_df) as Hframe.
  destruct (match_orders paytm_df razorpay_df shopify_df) as [[po ro] residual].
  destruct Hframe as (Hfp & Hfr).
  intros row (t' & Ht' & ->)%combine_and_format_data_In. simpl.
  apply in_app_or in Ht' as [Ht'|Ht'].
  - destruct (Forall2_In_r _ _ _ _ Hfp Ht') as (t & Ht & Hsame).
    apply (same_other_fields_by_kind t t' Hsame), normalized_by_kind.
    left. eauto.
  - destruct (Forall2_In_r _ _ _ _ Hfr Ht') as (t & Ht & Hsame).
    apply (same_other_fields_by_kind t t' Hsame), normalized_by_kind.
    right. eauto.
Qed.

Lemma debit_credit_by_kind_witness :
  normalized (process_razorpay_row razorpay_payment_500) /\
  Credit (process_razorpay_row razorpay_payment_500)
  = (500 - (10 + 1.5))%float /\
  Debit (process_razorpay_row razorpay_payment_500) = 0%float.
Proof.
  pose proof (proj1 debit_credit_by_kind (process_razorpay_row razorpay_payment_500)
                (normalized_razorpay razorpay_payment_500)) as (Hd & Hc & _).
  split; [apply normalized_razorpay|]. split; [exact Hc | exact Hd].
Defined.

(** * The theorems on sample data *)

Lemma sample_pool_sorted : StronglySorted Name_le [order_1001; order_1002].
Proof. repeat constructor. Qed.




Lemma two_candidates_on_sample :
  match_orders [paytm_payment] [] [order_1001; order_1002]
  = ([annotate paytm_payment order_1001], [], [order_1002]).
Proof. vm_compute. reflexivity. Qed.


Lemma sample_frames_unannotated :
  Forall unannotated [paytm_payment_700; paytm_payment] /\
  Forall unannotated [razorpay_refund].
Proof. split; repeat constructor. Qed.

(** Two PayTm payments and a Razorpay refund against three orders. *)
Lemma residual_pool_is_pool_minus_claims_witness :
  let '(paytm_out, razorpay_out, residual) :=
    match_orders [paytm_payment_700; paytm_payment] [razorpay_refund]
                 [order_1001; order_1002; order_2001] in
  let used := final_names [paytm_payment_700; paytm_payment] [razorpay_refund]
                          [order_1001; order_1002; order_2001] in
  residual
  = List.filter (fun c => bool_decide
                            (Name c ∉ paytm_used_names used ∪ razorpay_used_names used))
                [order_1001; order_1002; order_2001] /\
  paytm_used_names used ∪ razorpay_used_names used
  = order_refs paytm_out ∪ order_refs razorpay_out /\
  forall c, In c residual ->
    forall t, In t (paytm_out ++ razorpay_out)%list -> Order_ID t <> Some (Name c).
Proof.
  apply (residual_pool_is_pool_minus_claims
           [paytm_payment_700; paytm_payment] [razorpay_refund]
           [order_1001; order_1002; order_2001]).
  - exact (proj1 sample_frames_unannotated).
  - exact (proj2 sample_frames_unannotated).
Defined.

Lemma residual_pool_on_sample :
  match_orders [paytm_payment_700; paytm_payment] [razorpay_refund]
               [order_1001; order_1002; order_2001]
  = ([paytm_payment_700; annotate paytm_payment order_1001],
     [annotate razorpay_refund order_1001],
     [order_1002; order_2001]).
Proof. vm_compute. reflexivity. Qed.

(** The pool holds two rows with the order id "#2001"; the payment takes
    the first, and neither is in the residual pool. *)
Lemma claimed_order_id_leaves_no_row_witness :
  "#2001" ∈ all_names (names_before [order_2001; order_2001_again; order_1002]
                                    [paytm_payment] [] 1) /\
  let '(_, _, residual) :=
    match_orders [paytm_payment] [] [order_2001; order_2001_again; order_1002] in
  forall c, In c [order_2001; order_2001_again; order_1002] ->
            Name c = "#2001" -> ~ In c residual.
Proof.
  assert (H : "#2001" ∈ all_names (names_before [order_2001; order_2001_again; order_1002]
                                                [paytm_payment] [] 1)).
  { apply (bool_decide_unpack _). vm_compute. exact I. }
  split; [exact H|].
  exact (claimed_order_id_leaves_no_row [paytm_payment] []
           [order_2001; order_2001_again; order_1002] 1 "#2001" H).
Defined.

Lemma duplicate_order_id_on_sample :
  match_orders [paytm_payment] [] [order_2001; order_2001_again; order_1002]
  = ([annotate paytm_payment order_2001], [], [order_1002]).
Proof. vm_compute. reflexivity. Qed.

(** The ledger of the two PayTm payments of which the second has an order. *)
Lemma ledger_sorted_unset_last_and_numbered_witness :
  sorted_ledger [paytm_payment_700; annotate paytm_payment order_2001] [] !! 1%nat
  = Some paytm_payment_700 /\
  combine_and_format_data [paytm_payment_700; annotate paytm_payment order_2001] [] !! 1%nat
  = Some (ledger_row 2 paytm_payment_700).
Proof.
  assert (H : sorted_ledger [paytm_payment_700; annotate paytm_payment order_2001] []
              !! 1%nat = Some paytm_payment_700) by reflexivity.
  split; [exact H|].
  exact (proj1 (proj2 (proj2 (proj2 (proj2
           (ledger_sorted_unset_last_and_numbered
              [paytm_payment_700; annotate paytm_payment order_2001] [])))))
           1%nat paytm_payment_700 H).
Defined.

(** * More on the matcher *)

Lemma step_taken_from shopify_df used row :
  taken_from shopify_df row (fst (match_order_id_and_party_info shopify_df used row)).
Proof.
  destruct (step_outcome_holds shopify_df used row) as [c Hty Hrow Hfind|c Hty Hrow Hfind|_];
    simpl; [| |now left].
  - apply find_some in Hfind as (Hin & _). apply matching_row_In in Hin as (Hin & Hm).
    right. exists c. unfold canonical_kind. auto 7.
  - apply find_some in Hfind as (Hin & _). apply matching_row_In in Hin as (Hin & Hm).
    right. exists c. unfold canonical_kind. auto 7.
Qed.

(** X1: every row [match_orders] returns is the row it was given, or that
    row with the order id and the three billing fields of one pool candidate
    whose total equals the row's amount and whose paid date is the row's
    calendar date.  Order id and party fields are written together: a row
    that comes back without an order id is the row that went in. *)
Theorem every_match_is_a_pool_candidate paytm_df razorpay_df shopify_df :
  let '(paytm_out, razorpay_out, _) := match_orders paytm_df razorpay_df shopify_df in
  Forall2 (taken_from shopify_df) paytm_df paytm_out /\
  Forall2 (taken_from shopify_df) razorpay_df razorpay_out /\
  Forall2 (fun t t' => Order_ID t' = None -> t' = t)
          (paytm_df ++ razorpay_df)%list (paytm_out ++ razorpay_out)%list.
Proof.
  destruct (match_orders paytm_df razorpay_df shopify_df) as [[po ro] residual] eqn:Hrun.
  unfold match_orders in Hrun.
  rewrite match_orders_run_eq in Hrun. simpl in Hrun. injection Hrun as <- <- _.
  assert (H : forall used df,
             Forall2 (taken_from shopify_df) df
               (fst (df_apply (match_order_id_and_party_info shopify_df) used df))).
  { intros used df. apply df_apply_Forall2. intros st row. apply step_taken_from. }
  split; [apply H|]. split; [apply H|].
  apply Forall2_app; (eapply Forall2_impl; [apply H|]);
    intros t t' [->|(c & _ & _ & _ & _ & ->)]; auto; discriminate.
Qed.





Lemma pool_out_of_order_on_sample :
  match_orders [paytm_payment] [] [order_1002; order_1001]
  = ([annotate paytm_payment order_1002], [], [order_1001]).
Proof. vm_compute. reflexivity. Qed.

(** X3 on a sample: two payments and a refund of 500 against two orders. *)
Lemma claims_exclusive_within_kind_witness :
  let '(paytm_out, razorpay_out, _) :=
    match_orders [paytm_payment; paytm_refund] [razorpay_payment]
                 [order_1001; order_1002] in
  NoDup (kind_refs "payment" (paytm_out ++ razorpay_out)%list) /\
  NoDup (kind_refs "refund" (paytm_out ++ razorpay_out)%list).
Proof.
  apply (claims_exclusive_within_kind [paytm_payment; paytm_refund] [razorpay_payment]
           [order_1001; order_1002]); repeat constructor.
Defined.

(** ** Rows that cannot match *)

Lemma step_no_match shopify_df used row :
  (forall c, In c shopify_df -> is_match row c = false) ->
  match_order_id_and_party_info shopify_df used row = (row, used).
Proof.
  intros Hno.
  destruct (step_outcome_holds shopify_df used row) as [c _ _ Hfind|c _ _ Hfind|_];
    [| |reflexivity];
    apply find_some in Hfind as (Hin & _); apply matching_row_In in Hin as (Hin & Hm);
    rewrite (Hno c Hin) in Hm; discriminate.
Qed.

Lemma step_passes_through shopify_df used row :
  passes_through row ->
  match_order_id_and_party_info shopify_df used row = (row, used).
Proof.
  intros Hpass.
  destruct (step_outcome_holds shopify_df used row) as [c Hty Hrow _|c Hty Hrow _|_];
    [| |reflexivity]; destruct Hpass as [H|H]; try contradiction;
    destruct H; unfold canonical_kind; auto.
Qed.

Lemma df_apply_id shopify_df used df :
  Forall (fun row => match_order_id_and_party_info shopify_df used row = (row, used)) df ->
  df_apply (match_order_id_and_party_info shopify_df) used df = (df, used).
Proof.
  induction 1 as [|row df Hrow _ IH]; [reflexivity|].
  rewrite df_apply_cons, Hrow. simpl. rewrite IH. reflexivity.
Qed.

Lemma unused_no_names shopify_df : List.filter (unused no_names) shopify_df = shopify_df.
Proof.
  induction shopify_df as [|c l IH]; [reflexivity|].
  simpl. unfold unused at 1, not_in. simpl.
  rewrite !bool_decide_eq_true_2 by apply not_elem_of_empty. simpl. now rewrite IH.
Qed.

Lemma match_orders_id paytm_df razorpay_df shopify_df :
  (forall used row, In row (paytm_df ++ razorpay_df)%list ->
     match_order_id_and_party_info shopify_df used row = (row, used)) ->
  match_orders paytm_df razorpay_df shopify_df = (paytm_df, razorpay_df, shopify_df).
Proof.
  intros H. unfold match_orders. rewrite match_orders_run_eq. simpl.
  assert (Hp : df_apply (match_order_id_and_party_info shopify_df) no_names paytm_df
               = (paytm_df, no_names)).
  { apply df_apply_id, Forall_forall. intros row Hrow%list_elem_of_In.
    apply H, in_or_app. now left. }
  rewrite Hp. simpl.
  assert (Hr : df_apply (match_order_id_and_party_info shopify_df) no_names razorpay_df
               = (razorpay_df, no_names)).
  { apply df_apply_id, Forall_forall. intros row Hrow%list_elem_of_In.
    apply H, in_or_app. now right. }
  rewrite Hr. simpl. now rewrite unused_no_names.
Qed.

(** X7: rows that already carry an order id, and rows whose kind is neither
    payment nor refund, pass through [match_orders] as they are and claim
    nothing: when both frames hold only such rows the frames come back
    unchanged and the whole pool is residual, also the orders the rows
    refer to. *)
Theorem annotated_rows_claim_nothing paytm_df razorpay_df shopify_df :
  Forall passes_through paytm_df -> Forall passes_through razorpay_df ->
  match_orders paytm_df razorpay_df shopify_df = (paytm_df, razorpay_df, shopify_df).
Proof.
  intros Hp Hr. apply match_orders_id. intros used row Hrow.
  apply step_passes_through.
  assert (H : Forall passes_through (paytm_df ++ razorpay_df)%list)
    by (apply Forall_app; auto).
  rewrite Forall_forall in H. apply H. now apply list_elem_of_In.
Qed.

Lemma annotated_rows_claim_nothing_witness :
  match_orders [annotate paytm_payment order_2001]
               [process_razorpay_row razorpay_settlement] [order_2001]
  = ([annotate paytm_payment order_2001],
     [process_razorpay_row razorpay_settlement], [order_2001]).
Proof.
  apply annotated_rows_claim_nothing.
  - apply Forall_cons. split; [|apply Forall_nil; exact I]. left. discriminate.
  - apply Forall_cons. split; [|apply Forall_nil; exact I].
    right. intros [H|H]; discriminate H.
Defined.

(** X8: with an empty pool both frames come back unchanged and the residual
    pool is empty; with no transaction at all the whole pool is residual. *)
Theorem empty_pool_or_no_transactions paytm_df razorpay_df shopify_df :
  match_orders paytm_df razorpay_df [] = (paytm_df, razorpay_df, []) /\
  match_orders [] [] shopify_df = ([], [], shopify_df).
Proof.
  split.
  - apply match_orders_id. intros used row _. apply step_no_match. intros c [].
  - apply match_orders_id. intros used row [].
Qed.

(** X9: a row whose amount is missing ([nan]) or whose event time is missing
    ([NaT]) comes back from [match_orders] as it went in, whatever the pool
    holds. *)
Theorem missing_amount_or_time_is_never_matched paytm_df razorpay_df shopify_df k row :
  visited paytm_df razorpay_df !! k = Some row ->
  Order_Amt row = nan \/ TDate row = None ->
  let '(paytm_out, razorpay_out, _) := match_orders paytm_df razorpay_df shopify_df in
  (paytm_out ++ razorpay_out)%list !! k = Some row.
Proof.
  intros Hk Hmiss.
  destruct (match_orders paytm_df razorpay_df shopify_df) as [[po ro] residual] eqn:Hrun.
  apply match_orders_visited in Hrun as (Hrun & _).
  pose proof (df_apply_lookup (match_order_id_and_party_info shopify_df)
                no_names _ _ _ Hk) as Hout.
  rewrite Hrun in Hout. simpl in Hout. rewrite Hout, step_no_match; [reflexivity|].
  intros c _. destruct Hmiss as [H|H].
  - now apply nan_amount_never_matches.
  - apply NaT_never_matches. now left.
Qed.

Lemma missing_amount_or_time_is_never_matched_witness :
  let '(paytm_out, razorpay_out, _) :=
    match_orders [] [process_razorpay_row razorpay_bad_date] [order_2001] in
  (paytm_out ++ razorpay_out)%list !! 0%nat = Some (process_razorpay_row razorpay_bad_date).
Proof.
  apply (missing_amount_or_time_is_never_matched []
           [process_razorpay_row razorpay_bad_date] [order_2001] 0).
  - reflexivity.
  - right. reflexivity.
Defined.

(** ** Where claimed names come from *)

Lemma step_names_origin shopify_df used row n :
  n ∈ all_names (snd (match_order_id_and_party_info shopify_df used row)) ->
  n ∈ all_names used \/
  exists c, In c shopify_df /\ Name c = n /\ is_match row c = true.
Proof.
  destruct (step_outcome_holds shopify_df used row) as [c _ _ Hfind|c _ _ Hfind|_];
    unfold all_names; simpl; [| |auto];
    apply find_some in Hfind as (Hin & _); apply matching_row_In in Hin as (Hin & Hm);
    intros Hn; (assert (Hcases : n = Name c \/ n ∈ all_names used)
                 by (unfold all_names; set_solver));
    destruct Hcases as [->|H]; eauto.
Qed.

Lemma df_apply_names_origin shopify_df used df n :
  n ∈ all_names (snd (df_apply (match_order_id_and_party_info shopify_df) used df)) ->
  n ∈ all_names used \/
  exists t c, In t df /\ In c shopify_df /\ Name c = n /\ is_match t c = true.
Proof.
  revert used. induction df as [|row df IH]; intros used; [simpl; auto|].
  rewrite df_apply_cons. simpl. intros [H|(t & c & Ht & Hc)]%IH.
  - apply step_names_origin in H as [H|(c & Hc)]; [auto|].
    right. exists row, c. simpl. tauto.
  - right. exists t, c. simpl. tauto.
Qed.

(** X5: a candidate stays in the residual pool when no pool row of its name
    equals any transaction in amount and date; so an order that nothing
    matches is never reported as used, also when its name occurs twice. *)
Theorem unmatched_candidate_stays_residual paytm_df razorpay_df shopify_df c :
  In c shopify_df ->
  (forall c' t, In c' shopify_df -> Name c' = Name c ->
                In t (paytm_df ++ razorpay_df)%list -> is_match t c' = false) ->
  let '(_, _, residual) := match_orders paytm_df razorpay_df shopify_df in
  In c residual.
Proof.
  intros Hc Hno.
  destruct (match_orders paytm_df razorpay_df shopify_df) as [[po ro] residual] eqn:Hrun.
  apply match_orders_visited in Hrun as (Hrun & ->).
  apply filter_In. split; [exact Hc|].
  rewrite unused_all_names. apply bool_decide_eq_true. intros Hn.
  pose proof (df_apply_names_origin shopify_df no_names
                (visited paytm_df razorpay_df) (Name c)) as H.
  rewrite Hrun in H. simpl in H. destruct (H Hn) as [H0|(t & c' & Ht & Hc' & Hname & Hm)].
  - unfold all_names, no_names in H0. simpl in H0. set_solver.
  - rewrite (Hno c' t Hc' Hname Ht) in Hm. discriminate.
Qed.

(** The order of 500 stays when the only payment is one of 700. *)
Lemma unmatched_candidate_stays_residual_witness :
  let '(_, _, residual) := match_orders [paytm_payment_700] [] [order_2001] in
  In order_2001 residual.
Proof.
  apply (unmatched_candidate_stays_residual [paytm_payment_700] [] [order_2001] order_2001).
  - left. reflexivity.
  - intros c' t [<-|[]] _ [<-|[]]. vm_compute. reflexivity.
Defined.

(** ** The residual pool as a list *)

Lemma filter_sublist {A} (f : A -> bool) l : sublist (List.filter f l) l.
Proof.
  induction l as [|x l IH]; simpl; [constructor|].
  destruct (f x); now constructor.
Qed.

Lemma filter_StronglySorted {A} (R : A -> A -> Prop) (f : A -> bool) l :
  StronglySorted R l -> StronglySorted R (List.filter f l).
Proof.
  induction 1 as [|x l Hl IH Hx]; simpl; [constructor|].
  destruct (f x); [|exact IH]. constructor; [exact IH|].
  apply Forall_forall. intros y Hy%list_elem_of_In. apply filter_In in Hy as [Hy _].
  rewrite Forall_forall in Hx. apply Hx. now apply list_elem_of_In.
Qed.

(** X4: the residual pool holds rows of the pool only, in the order the pool
    has them and no more often than the pool has them; a pool in ascending
    order of name gives a residual pool in ascending order of name. *)
Theorem residual_pool_keeps_pool_order paytm_df razorpay_df shopify_df :
  let '(_, _, residual) := match_orders paytm_df razorpay_df shopify_df in
  sublist residual shopify_df /\
  (StronglySorted Name_le shopify_df -> StronglySorted Name_le residual).
Proof.
  destruct (match_orders paytm_df razorpay_df shopify_df) as [[po ro] residual] eqn:Hrun.
  apply match_orders_visited in Hrun as (_ & ->).
  split; [apply filter_sublist | apply filter_StronglySorted].
Qed.

Lemma residual_pool_keeps_pool_order_witness :
  sublist (snd (match_orders [paytm_payment] [] [order_1001; order_1002]))
          [order_1001; order_1002] /\
  StronglySorted Name_le (snd (match_orders [paytm_payment] [] [order_1001; order_1002])).
Proof.
  pose proof (residual_pool_keeps_pool_order [paytm_payment] [] [order_1001; order_1002])
    as H.
  destruct (match_orders [paytm_payment] [] [order_1001; order_1002]) as [[po ro] residual].
  simpl. destruct H as [H1 H2]. split; [exact H1 | exact (H2 sample_pool_sorted)].
Defined.

(** ** One pass, front to back *)

Lemma names_before_take shopify_df paytm_df razorpay_df paytm_df' razorpay_df' k :
  take (S k) (visited paytm_df razorpay_df) = take (S k) (visited paytm_df' razorpay_df') ->
  names_before shopify_df paytm_df razorpay_df k
  = names_before shopify_df paytm_df' razorpay_df' k.
Proof.
  intros H. unfold names_before.
  assert (Hk : take k (visited paytm_df razorpay_df)
               = take k (visited paytm_df' razorpay_df')).
  { pose proof (take_take (visited paytm_df razorpay_df) k (S k)) as H1.
    pose proof (take_take (visited paytm_df' razorpay_df') k (S k)) as H2.
    rewrite Nat.min_l in H1, H2 by lia. rewrite <- H1, <- H2. now rewrite H. }
  now rewrite Hk.
Qed.

(** X6: the matcher never goes back.  What row [k] comes out as depends on
    the rows up to [k] and the pool alone: two runs over the same pool whose
    frames agree on the first [k + 1] rows visited return the same row [k],
    whatever follows. *)
Theorem later_rows_change_nothing paytm_df razorpay_df paytm_df' razorpay_df' shopify_df k :
  take (S k) (visited paytm_df razorpay_df) = take (S k) (visited paytm_df' razorpay_df') ->
  let '(paytm_out, razorpay_out, _) := match_orders paytm_df razorpay_df shopify_df in
  let '(paytm_out', razorpay_out', _) := match_orders paytm_df' razorpay_df' shopify_df in
  (paytm_out ++ razorpay_out)%list !! k = (paytm_out' ++ razorpay_out')%list !! k.
Proof.
  intros Htake.
  destruct (match_orders paytm_df razorpay_df shopify_df) as [[po ro] residual] eqn:Hrun.
  destruct (match_orders paytm_df' razorpay_df' shopify_df) as [[po' ro'] residual'] eqn:Hrun'.
  apply match_orders_visited in Hrun as (Hrun & _).
  apply match_orders_visited in Hrun' as (Hrun' & _).
  assert (Hrow : visited paytm_df razorpay_df !! k = visited paytm_df' razorpay_df' !! k).
  { rewrite <- (lookup_take_lt (visited paytm_df razorpay_df) (S k) k) by lia.
    rewrite <- (lookup_take_lt (visited paytm_df' razorpay_df') (S k) k) by lia.
    now rewrite Htake. }
  destruct (visited paytm_df razorpay_df !! k) as [row|] eqn:Hk.
  - symmetry in Hrow.
    pose proof (df_apply_lookup (match_order_id_and_party_info shopify_df)
                  no_names _ _ _ Hk) as Hout.
    pose proof (df_apply_lookup (match_order_id_and_party_info shopify_df)
                  no_names _ _ _ Hrow) as Hout'.
    rewrite Hrun in Hout. rewrite Hrun' in Hout'. simpl in Hout, Hout'.
    rewrite Hout, Hout'.
    fold (names_before shopify_df paytm_df razorpay_df k).
    fold (names_before shopify_df paytm_df' razorpay_df' k).
    now rewrite (names_before_take _ _ _ _ _ _ Htake).
  - symmetry in Hrow.
    apply lookup_ge_None in Hk. apply lookup_ge_None in Hrow.
    pose proof (df_apply_length (match_order_id_and_party_info shopify_df)
                  no_names (visited paytm_df razorpay_df)) as Hlen.
    pose proof (df_apply_length (match_order_id_and_party_info shopify_df)
                  no_names (visited paytm_df' razorpay_df')) as Hlen'.
    rewrite Hrun in Hlen. rewrite Hrun' in Hlen'. simpl in Hlen, Hlen'.
    rewrite (proj2 (lookup_ge_None (po ++ ro)%list k)) by lia.
    rewrite (proj2 (lookup_ge_None (po' ++ ro')%list k)) by lia. reflexivity.
Qed.

Lemma later_rows_change_nothing_witness :
  (fst (fst (match_orders [paytm_payment] [] [order_2001]))
   ++ snd (fst (match_orders [paytm_payment] [] [order_2001])))%list !! 0%nat
  = (fst (fst (match_orders [paytm_payment; paytm_payment] [razorpay_payment] [order_2001]))
     ++ snd (fst (match_orders [paytm_payment; paytm_payment] [razorpay_payment]
                               [order_2001])))%list !! 0%nat.
Proof.
  pose proof (later_rows_change_nothing [paytm_payment] []
                [paytm_payment; paytm_payment] [razorpay_payment] [order_2001] 0 eq_refl)
    as H.
  destruct (match_orders [paytm_payment] [] [order_2001]) as [[po ro] residual].
  destruct (match_orders [paytm_payment; paytm_payment] [razorpay_payment] [order_2001])
    as [[po' ro'] residual'].
  exact H.
Defined.

(** PayTm goes first.  The PayTm frame comes out as it would with no
    Razorpay frame at all; a Razorpay row only finds what the PayTm rows of
    its kind have left. *)
Lemma paytm_frame_ignores_razorpay paytm_df razorpay_df razorpay_df' shopify_df :
  fst (fst (match_orders paytm_df razorpay_df shopify_df))
  = fst (fst (match_orders paytm_df razorpay_df' shopify_df)) /\
  snd (fst (match_orders paytm_df razorpay_df shopify_df))
  = fst (df_apply (match_order_id_and_party_info shopify_df)
                  (final_names paytm_df [] shopify_df) razorpay_df).
Proof.
  unfold match_orders, final_names. rewrite !match_orders_run_eq. simpl. auto.
Qed.

(** * More on the normalizers *)

(** ** process_paytm_data *)

Lemma process_paytm_row_cases r :
  (no_junk_date r /\ exists t, process_paytm_row r = Ok t) \/
  (exists text, PayTm.transaction_date r = Junk text /\
                process_paytm_row r = Raise (ValueError text)).
Proof.
  unfold process_paytm_row, no_junk_date.
  destruct (PayTm.transaction_date r) as [|text|ts]; simpl.
  - left. split; [discriminate | eauto].
  - right. eauto.
  - left. split; [discriminate | eauto].
Qed.

(** X10: [process_paytm_data] returns a frame exactly when no line has a
    transaction date the format rejects; the frame then has one row per line,
    in file order, each tagged PayTm and without an order.  Otherwise it
    raises the error of the first such line and returns nothing. *)
Theorem process_paytm_data_all_or_nothing file :
  match process_paytm_data file with
  | Ok df =>
      Forall no_junk_date file /\
      Forall2 (fun r t => process_paytm_row r = Ok t) file df /\
      Forall (fun t => Platform t = "PayTm" /\ unannotated t) df
  | Raise e =>
      exists pre r post text,
        file = (pre ++ r :: post)%list /\ Forall no_junk_date pre /\
        PayTm.transaction_date r = Junk text /\ e = ValueError text
  end.
Proof.
  unfold process_paytm_data. induction file as [|r file IH]; simpl.
  - repeat split; constructor.
  - destruct (process_paytm_row_cases r) as [(Hr & t & Ht)|(text & Hd & Ht)];
      rewrite Ht; simpl.
    + destruct (mapM process_paytm_row file) as [df|e]; simpl.
      * destruct IH as (H1 & H2 & H3). repeat split; try (constructor; assumption).
        constructor; [|exact H3]. apply process_paytm_row_Ok in Ht. tauto.
      * destruct IH as (pre & r' & post & text & -> & Hpre & Hd & ->).
        exists (r :: pre), r', post, text. repeat split; try assumption.
        constructor; assumption.
    + exists [], r, file, text. repeat split; [constructor | assumption].
Qed.

(** ** Missing numbers *)

Lemma add_nan_l x : (nan + x)%float = nan.
Proof. apply Prim2SF_inj. rewrite add_spec. reflexivity. Qed.

Lemma add_nan_r x : (x + nan)%float = nan.
Proof. apply Prim2SF_inj. rewrite add_spec. now destruct (Prim2SF x). Qed.

Lemma sub_nan_l x : (nan - x)%float = nan.
Proof. apply Prim2SF_inj. rewrite sub_spec. reflexivity. Qed.

Lemma sub_nan_r x : (x - nan)%float = nan.
Proof. apply Prim2SF_inj. rewrite sub_spec. now destruct (Prim2SF x). Qed.

Lemma missing_is_nan (c : cell float) : missing c -> to_numeric_coerce c = nan.
Proof. intros [->|(text & ->)]; reflexivity. Qed.

Lemma net_of_missing ty amt fee :
  amt = nan \/ fee = nan ->
  (ty = Some "payment" -> credit_of ty amt fee = nan /\ debit_of ty amt fee = 0%float) /\
  (ty = Some "refund" -> debit_of ty amt fee = nan /\ credit_of ty amt fee = 0%float).
Proof.
  intros H.
  assert (Hnet : (amt - fee)%float = nan)
    by (destruct H as [-> | ->]; [apply sub_nan_l | apply sub_nan_r]).
  unfold credit_of, debit_of. split; intros ->; simpl; auto.
Qed.

(** X11: a line whose amount or one of whose two fee components is empty or
    no number still gives a row, and the missing number spreads: the net
    amount of the row, its Credit when it is a payment and its Debit when it
    is a refund, is [nan], not a number computed from the parts that are
    there. *)
Theorem missing_number_makes_net_missing :
  (forall r t,
      process_paytm_row r = Ok t ->
      missing (PayTm.amount r) \/ missing (PayTm.commission r) \/ missing (PayTm.gst r) ->
      (Type_ t = Some "payment" -> Credit t = nan /\ Debit t = 0%float) /\
      (Type_ t = Some "refund" -> Debit t = nan /\ Credit t = 0%float)) /\
  (forall r,
      missing (Razorpay.amount r) \/ missing (Razorpay.fee_exclusive_tax r) \/
      missing (Razorpay.tax r) ->
      let t := process_razorpay_row r in
      (Type_ t = Some "payment" -> Credit t = nan /\ Debit t = 0%float) /\
      (Type_ t = Some "refund" -> Debit t = nan /\ Credit t = 0%float)).
Proof.
  split.
  - intros r t Ht Hmiss. unfold process_paytm_row in Ht.
    destruct (to_datetime_raise (PayTm.transaction_date r)); simpl in Ht; [|discriminate].
    injection Ht as <-. simpl. apply net_of_missing.
    destruct Hmiss as [H|[H|H]]; apply missing_is_nan in H; rewrite H;
      auto using add_nan_l, add_nan_r.
  - intros r Hmiss. simpl. apply net_of_missing.
    destruct Hmiss as [H|[H|H]]; apply missing_is_nan in H; rewrite H;
      auto using add_nan_l, add_nan_r.
Qed.

(** A Razorpay payment with an empty tax cell. *)
Lemma missing_number_makes_net_missing_witness :
  let r := {| Razorpay.payment_captured_at := Val (jan5_at 36000);
              Razorpay.settled_at := Some "07/01/2024 18:30:00";
              Razorpay.transaction_entity := Some "payment";
              Razorpay.amount := Val 500%float;
              Razorpay.fee_exclusive_tax := Val 10%float;
              Razorpay.tax := Blank |} in
  Credit (process_razorpay_row r) = nan /\ Debit (process_razorpay_row r) = 0%float.
Proof.
  intros r.
  apply (proj2 missing_number_makes_net_missing r).
  - right. right. left. reflexivity.
  - reflexivity.
Defined.

(** ** strip *)

Lemma list_ascii_of_string_app s1 s2 :
  list_ascii_of_string (s1 ++ s2) = (list_ascii_of_string s1 ++ list_ascii_of_string s2)%list.
Proof. induction s1 as [|a s1 IH]; simpl; [reflexivity | now rewrite IH]. Qed.

Lemma list_ascii_of_string_inj s1 s2 :
  list_ascii_of_string s1 = list_ascii_of_string s2 -> s1 = s2.
Proof.
  intros H. rewrite <- (string_of_list_ascii_of_string s1),
              <- (string_of_list_ascii_of_string s2). now rewrite H.
Qed.

Lemma list_ascii_of_string_rev_app s1 s2 :
  list_ascii_of_string (String.rev_app s1 s2)
  = (List.rev (list_ascii_of_string s1) ++ list_ascii_of_string s2)%list.
Proof.
  revert s2. induction s1 as [|a s1 IH]; intros s2; simpl; [reflexivity|].
  rewrite IH. simpl. now rewrite <- app_assoc.
Qed.

Lemma list_ascii_of_string_rev s :
  list_ascii_of_string (String.rev s) = List.rev (list_ascii_of_string s).
Proof.
  unfold String.rev. rewrite list_ascii_of_string_rev_app. apply app_nil_r.
Qed.

Lemma string_rev_involutive s : String.rev (String.rev s) = s.
Proof.
  apply list_ascii_of_string_inj. rewrite !list_ascii_of_string_rev. apply rev_involutive.
Qed.

Lemma string_rev_app s1 s2 : String.rev (s1 ++ s2) = String.rev s2 ++ String.rev s1.
Proof.
  apply list_ascii_of_string_inj.
  rewrite list_ascii_of_string_rev, !list_ascii_of_string_app, !list_ascii_of_string_rev.
  apply rev_app_distr.
Qed.

Lemma string_rev_repeat_char ch n : String.rev (repeat_char ch n) = repeat_char ch n.
Proof.
  apply list_ascii_of_string_inj. rewrite list_ascii_of_string_rev.
  assert (H : list_ascii_of_string (repeat_char ch n) = List.repeat ch n).
  { induction n as [|n IH]; simpl; [reflexivity | now rewrite IH]. }
  rewrite H. apply rev_repeat.
Qed.

Lemma string_app_empty_r s : s ++ EmptyString = s.
Proof.
  apply list_ascii_of_string_inj. rewrite list_ascii_of_string_app. apply app_nil_r.
Qed.

Lemma string_app_cons a s t : String a s ++ t = String a (s ++ t).
Proof. reflexivity. Qed.

Lemma lstrip_repeat_char ch n s : lstrip ch (repeat_char ch n ++ s) = lstrip ch s.
Proof.
  induction n as [|n IH]; [reflexivity|].
  change (repeat_char ch (S n) ++ s) with (String ch (repeat_char ch n ++ s)).
  simpl. now rewrite Ascii.eqb_refl.
Qed.

Lemma lstrip_not_head ch s : (forall u, s <> String ch u) -> lstrip ch s = s.
Proof.
  destruct s as [|a s]; simpl; [reflexivity|]. intros H.
  destruct (Ascii.eqb_spec a ch) as [->|_]; [destruct (H s eq_refl) | reflexivity].
Qed.

(** X12: [strip] undoes the wrapping of the PayTm export.  A text that
    neither begins nor ends with the character comes back as it is from any
    number of copies of the character in front of it and behind it; those
    inside the text stay. *)
Theorem strip_unwraps ch m n s :
  not_wrapped ch s ->
  strip ch (repeat_char ch m ++ s ++ repeat_char ch n) = s.
Proof.
  intros [Hhead Hlast]. unfold strip.
  rewrite lstrip_repeat_char.
  destruct s as [|a s].
  - change (EmptyString ++ repeat_char ch n) with (repeat_char ch n).
    rewrite <- (string_app_empty_r (repeat_char ch n)), lstrip_repeat_char.
    reflexivity.
  - rewrite (lstrip_not_head ch (String a s ++ repeat_char ch n)).
    + rewrite string_rev_app, string_rev_repeat_char, lstrip_repeat_char.
      rewrite lstrip_not_head; [apply string_rev_involutive|].
      intros u Hu. apply (Hlast (String.rev u)).
      rewrite <- (string_rev_involutive (String a s)), Hu.
      change (String ch u) with (String ch EmptyString ++ u).
      rewrite string_rev_app. reflexivity.
    + intros u Hu. rewrite string_app_cons in Hu. injection Hu as -> _.
      exact (Hhead s eq_refl).
Qed.

Lemma strip_unwraps_witness :
  strip apostrophe "''REFUND'" = "REFUND" /\
  strip apostrophe "'O'Brien Tools'" = "O'Brien Tools".
Proof.
  split.
  - apply (strip_unwraps apostrophe 2 1 "REFUND").
    split; intros u Hu; [discriminate Hu|].
    apply (f_equal String.rev) in Hu. rewrite string_rev_app in Hu. discriminate Hu.
  - apply (strip_unwraps apostrophe 1 1 "O'Brien Tools").
    split; intros u Hu; [discriminate Hu|].
    apply (f_equal String.rev) in Hu. rewrite string_rev_app in Hu. discriminate Hu.
Defined.

(** * utils.py: validate_csv_file *)

Lemma endswith_unfold s suffix :
  endswith s suffix
  = (String.eqb s suffix ||
     match s with EmptyString => false | String _ s' => endswith s' suffix end).
Proof. destruct s; reflexivity. Qed.

Lemma endswith_spec s suffix :
  endswith s suffix = true <-> exists stem, s = stem ++ suffix.
Proof.
  induction s as [|a s IH]; rewrite endswith_unfold.
  - rewrite orb_false_r, String.eqb_eq. split.
    + intros <-. exists EmptyString. reflexivity.
    + intros ([|b stem] & H); [exact H | rewrite string_app_cons in H; discriminate H].
  - rewrite orb_true_iff, String.eqb_eq, IH. split.
    + intros [<-|(stem & ->)].
      * exists EmptyString. reflexivity.
      * exists (String a stem). reflexivity.
    + intros ([|b stem] & H).
      * left. exact H.
      * right. rewrite string_app_cons in H. injection H as _ ->. eauto.
Qed.

(** X14: [validate_csv_file] accepts a file exactly when there is one, its
    name ends in ".csv" (in lower case: the test is case-sensitive),
    [read_csv] reads it and the frame has a row; only then is the message
    "File is valid". *)
Theorem validate_csv_file_accepts {A} (file : option (Utils.upload A)) :
  (fst (validate_csv_file file) = true <->
   exists stem row rows,
     file = Some {| Utils.name := stem ++ ".csv"; Utils.read_csv := inr (row :: rows) |}) /\
  (snd (validate_csv_file file) = "File is valid" <-> fst (validate_csv_file file) = true).
Proof.
  assert (Hshape : forall stem row rows,
    file = Some {| Utils.name := stem ++ ".csv"; Utils.read_csv := inr (row :: rows) |} ->
    validate_csv_file file = (true, "File is valid")).
  { intros stem row rows ->. unfold validate_csv_file. simpl.
    rewrite (proj2 (endswith_spec (stem ++ ".csv") ".csv")) by eauto. reflexivity. }
  assert (Hcases : (exists stem row rows,
      file = Some {| Utils.name := stem ++ ".csv"; Utils.read_csv := inr (row :: rows) |}) \/
      (fst (validate_csv_file file) = false /\ snd (validate_csv_file file) <> "File is valid")).
  { unfold validate_csv_file. destruct file as [[name read]|]; simpl.
    - destruct (endswith name ".csv") eqn:Hname; simpl.
      + apply endswith_spec in Hname as (stem & ->).
        destruct read as [e|[|row rows]]; simpl.
        * right. split; [reflexivity|]. discriminate.
        * right. split; [reflexivity|]. discriminate.
        * left. eauto.
      + right. split; [reflexivity|]. discriminate.
    - right. split; [reflexivity|]. discriminate. }
  destruct Hcases as [(stem & row & rows & Hfile)|[Hf Hs]].
  - rewrite (Hshape _ _ _ Hfile). simpl. split; split; eauto.
  - rewrite Hf. split; split; try discriminate; try contradiction.
    intros (stem & row & rows & Hfile). rewrite (Hshape _ _ _ Hfile) in Hf. discriminate.
Qed.

(** * app.py: the password gate *)

Lemma compare_digest_ascii a b :
  is_ascii a = true -> is_ascii b = true -> compare_digest a b = inr (String.eqb a b).
Proof. unfold compare_digest. intros -> ->. reflexivity. Qed.

Lemma password_entered_typed secret typed (session_state : gmap string App.value) :
  password_entered secret (<["password" := App.VStr typed]> session_state)
  = match compare_digest typed secret with
    | inl e => inl e
    | inr true =>
        inr (delete "password" (<["password_correct" := App.VBool true]> session_state))
    | inr false =>
        inr (<["password_correct" := App.VBool false]>
               (<["password" := App.VStr typed]> session_state))
    end.
Proof.
  unfold password_entered. rewrite lookup_insert_eq.
  destruct (compare_digest typed secret) as [e|[|]]; try reflexivity.
  f_equal. rewrite insert_insert_ne by discriminate.
  now rewrite delete_insert_eq.
Qed.

(** X15: one entry in the password field, secret and entry being ASCII
    text.  [check_password] returns [True] afterwards exactly when the entry
    equals the secret; a correct entry is removed from the session state, a
    wrong one stays in it under the key "password" and the prompt reports a
    wrong password. *)
Theorem password_gate secret typed (session_state : gmap string App.value) :
  is_ascii secret = true -> is_ascii typed = true ->
  let session_state' := type_password secret typed session_state in
  (fst (check_password session_state') = true <-> typed = secret) /\
  (typed = secret -> session_state' !! "password" = None) /\
  (typed <> secret ->
   session_state' !! "password" = Some (App.VStr typed) /\
   check_password session_state' = (false, Some true)).
Proof.
  intros Hs Ht. unfold type_password. rewrite password_entered_typed.
  rewrite (compare_digest_ascii _ _ Ht Hs).
  destruct (String.eqb_spec typed secret) as [->|Hne]; simpl.
  - split; [|split].
    + unfold check_password. rewrite lookup_delete_ne by discriminate.
      rewrite lookup_insert_eq. simpl. tauto.
    + intros _. apply lookup_delete_eq.
    + intros H. contradiction.
  - split; [|split].
    + unfold check_password. rewrite lookup_insert_eq. simpl. split; [discriminate | contradiction].
    + intros H. contradiction.
    + intros _. split.
      * rewrite lookup_insert_ne by discriminate. apply lookup_insert_eq.
      * unfold check_password. rewrite lookup_insert_eq. simpl. reflexivity.
Qed.

Lemma type_password_locked secret typed session_state :
  locked session_state -> typed <> secret ->
  locked (type_password secret typed session_state).
Proof.
  intros Hl Hne. unfold locked, type_password. rewrite password_entered_typed.
  unfold compare_digest. destruct (is_ascii typed && is_ascii secret).
  - destruct (String.eqb_spec typed secret) as [->|_]; [contradiction|].
    rewrite lookup_insert_eq. reflexivity.
  - rewrite lookup_insert_ne by discriminate. exact Hl.
Qed.

(** X16: starting from an empty session state, whatever is typed into the
    password field and however often, [check_password] returns [True] only if
    one of the entries was the secret; until then the script stops at the
    prompt: it shows neither the upload form nor an error nor a result. *)
Theorem no_entry_without_the_password {F1 F2 F3 : Type} secret typed process_clicked
    (paytm_file : option F1) (razorpay_file : option F2) (shopify_files : list F3)
    processing :
  let session_state := type_passwords secret typed ∅ in
  (fst (check_password session_state) = true -> In secret typed) /\
  (~ In secret typed ->
   exists incorrect,
     snd (script secret process_clicked paytm_file razorpay_file shopify_files
                 processing session_state)
     = App.Password_prompt incorrect).
Proof.
  assert (H : forall s, locked s -> ~ In secret typed -> locked (type_passwords secret typed s)).
  { induction typed as [|pw rest IH]; intros s Hl Hnot; [exact Hl|].
    simpl. apply IH.
    - apply type_password_locked; [exact Hl|]. intros ->. apply Hnot. now left.
    - intros Hin. apply Hnot. now right. }
  assert (H0 : locked ∅) by reflexivity.
  simpl. split.
  - intros Hgranted. destruct (in_dec string_dec secret typed) as [Hin|Hnot]; [exact Hin|].
    specialize (H ∅ H0 Hnot). unfold locked in H. unfold check_password in Hgranted.
    rewrite H in Hgranted. discriminate.
  - intros Hnot. specialize (H ∅ H0 Hnot). unfold locked in H.
    unfold script, check_password. rewrite H. eauto.
Qed.

Lemma type_password_not_ascii secret typed session_state :
  is_ascii secret = false -> locked session_state ->
  locked (type_password secret typed session_state).
Proof.
  intros Hs Hl. unfold locked, type_password. rewrite password_entered_typed.
  unfold compare_digest. rewrite Hs, andb_false_r.
  rewrite lookup_insert_ne by discriminate. exact Hl.
Qed.

(** X17: a secret that holds a character outside ASCII cannot be entered:
    [hmac.compare_digest] raises on it for every entry, also the right one,
    and [check_password] keeps returning [False]. *)
Theorem non_ascii_secret_locks_everyone_out secret typed :
  is_ascii secret = false ->
  fst (check_password (type_passwords secret typed ∅)) = false /\
  password_entered secret (<["password" := App.VStr secret]> ∅) = inl App.TypeError.
Proof.
  intros Hs. split.
  - assert (H : forall s, locked s -> locked (type_passwords secret typed s)).
    { induction typed as [|pw rest IH]; intros s Hl; [exact Hl|].
      simpl. apply IH. now apply type_password_not_ascii. }
    specialize (H ∅ eq_refl). unfold locked in H. unfold check_password. now rewrite H.
  - rewrite password_entered_typed. unfold compare_digest. now rewrite Hs.
Qed.

(** The secret "pässword", in UTF-8. *)
Lemma non_ascii_secret_locks_everyone_out_witness :
  fst (check_password (type_passwords "pässword" ["pässword"] ∅)) = false.
Proof.
  apply (non_ascii_secret_locks_everyone_out "pässword" ["pässword"]).
  reflexivity.
Defined.

Lemma password_gate_witness :
  fst (check_password (type_password "s3cret" "s3cret" ∅)) = true /\
  type_password "s3cret" "s3cret" ∅ !! "password" = None /\
  check_password (type_password "s3cret" "guess" ∅) = (false, Some true).
Proof.
  destruct (password_gate "s3cret" "s3cret" ∅ eq_refl eq_refl) as (H1 & H2 & _).
  destruct (password_gate "s3cret" "guess" ∅ eq_refl eq_refl) as (_ & _ & H3).
  split; [apply H1; reflexivity|]. split; [apply H2; reflexivity|].
  apply H3. discriminate.
Defined.

(** * app.py: main *)

Lemma setdefault_lookup key v (s : gmap string App.value) k :
  setdefault key v s !! k
  = match s !! k with
    | Some x => Some x
    | None => if decide (key = k) then Some v else None
    end.
Proof.
  unfold setdefault. destruct (s !! key) eqn:Hkey.
  - destruct (s !! k) eqn:Hk; [reflexivity|]. case_decide; [congruence | reflexivity].
  - rewrite lookup_insert. case_decide.
    + subst k. rewrite Hkey. reflexivity.
    + now destruct (s !! k).
Qed.

Lemma setdefault_present key v (s : gmap string App.value) :
  is_Some (s !! key) -> setdefault key v s = s.
Proof. unfold setdefault. intros [x ->]. reflexivity. Qed.

(** X19: a run of [main] with Process clicked.  When the processing returns
    its tables the run shows them, and a rerun with no click shows them again
    whatever the processing would do then.  When the processing raises the
    run shows the error only and sets files_processed to False, so the
    results section stays hidden; the ledger and the unmatched table of an
    earlier run, like every other key, stay in the session state as they
    were. *)
Theorem main_shows_the_last_run {F1 F2 F3 : Type}
    (paytm_file : option F1) (razorpay_file : option F2) (shopify_files : list F3)
    processing (session_state : gmap string App.value) :
  let '(session_state', view) :=
    main true paytm_file razorpay_file shopify_files processing session_state in
  match processing with
  | inr (final_df, unused_shopify_df) =>
      view = App.Results final_df (Some unused_shopify_df) /\
      forall processing',
        main false paytm_file razorpay_file shopify_files processing' session_state'
        = (session_state', App.Results final_df (Some unused_shopify_df))
  | inl text =>
      view = App.Error_message ("An error occurred during processing: " ++ text) /\
      display session_state' = App.Upload_form /\
      session_state' !! "files_processed" = Some (App.VBool false) /\
      session_state' !! "processed_data"
      = Some (default App.VNone (session_state !! "processed_data")) /\
      session_state' !! "unused_data"
      = Some (default App.VNone (session_state !! "unused_data")) /\
      forall key, key <> "files_processed" -> key <> "processed_data" ->
                  key <> "unused_data" ->
                  session_state' !! key = session_state !! key
  end.
Proof.
  unfold main. simpl should_process. cbv iota.
  destruct processing as [text|[final_df unused]].
  - split; [reflexivity|]. split.
    { unfold display. rewrite lookup_insert_eq. reflexivity. }
    split; [apply lookup_insert_eq|].
    split; [|split].
    + rewrite lookup_insert_ne by discriminate. rewrite !setdefault_lookup.
      destruct (session_state !! "processed_data"); simpl; [reflexivity|].
      repeat case_decide; try discriminate; reflexivity.
    + rewrite lookup_insert_ne by discriminate. rewrite !setdefault_lookup.
      destruct (session_state !! "unused_data"); simpl; [reflexivity|].
      repeat case_decide; try discriminate; try reflexivity; congruence.
    + intros key H1 H2 H3. rewrite lookup_insert_ne by congruence.
      rewrite !setdefault_lookup.
      destruct (session_state !! key); [reflexivity|].
      repeat case_decide; congruence.
  - set (s0 := setdefault "files_processed" _ _).
    set (s1 := <["files_processed" := App.VBool true]> _).
    assert (Hd : display s1 = App.Results final_df (Some unused)).
    { unfold display, s1. rewrite lookup_insert_eq. simpl.
      rewrite !lookup_insert_ne by discriminate. rewrite lookup_insert_eq.
      rewrite lookup_insert_ne by discriminate. rewrite lookup_insert_eq. reflexivity. }
    split; [exact Hd|]. intros processing'.
    assert (Hs : setdefault "files_processed" (App.VBool false)
                   (setdefault "unused_data" App.VNone
                      (setdefault "processed_data" App.VNone s1)) = s1).
    { rewrite (setdefault_present "processed_data").
      2:{ unfold s1. rewrite !lookup_insert_ne by discriminate.
          rewrite lookup_insert_eq. eauto. }
      rewrite (setdefault_present "unused_data").
      2:{ unfold s1. rewrite lookup_insert_ne by discriminate.
          rewrite lookup_insert_eq. eauto. }
      apply setdefault_present. unfold s1. rewrite lookup_insert_eq. eauto. }
    rewrite Hs. unfold should_process.
    assert (Hf : s1 !! "files_processed" = Some (App.VBool true))
      by (unfold s1; apply lookup_insert_eq).
    rewrite Hf. simpl. rewrite Hd. reflexivity.
Qed.
